(** * The import pipeline of elysia-local

    A shallow embedding of [importdata.py] (value coercion, field
    normalisation, index classification, collection routing, per-row
    delivery) and of the insertion report of the import route in
    [elysia/api/routes/db.py], with the properties the specification
    states about them. *)

From Stdlib Require Import ZArith NArith Ascii.
From stdpp Require Import gmap strings list sorting pretty.

Set Warnings "-clear-no-such-hyp".

(** ** Python [str] operations

    A Python [str] is modelled by a [string] whose characters are the
    code points 0..255.  This alphabet is closed under every operation
    the pipeline applies ([strip], [lower], [split], [join], slicing). *)

Module PyStr.

Definition code (c : ascii) : N := N_of_ascii c.

(** [str.isspace] on one code point: the characters [str.strip()]
    removes. *)
Definition isspace (c : ascii) : bool :=
  let n := code c in
  ((9 <=? n) && (n <=? 13) || (28 <=? n) && (n <=? 32)
   || (n =? 133) || (n =? 160))%N.

Fixpoint lstrip_with (p : ascii → bool) (s : string) : string :=
  match s with
  | String c s' => if p c then lstrip_with p s' else s
  | EmptyString => EmptyString
  end.

Fixpoint rstrip_with (p : ascii → bool) (s : string) : string :=
  match s with
  | String c s' =>
      match rstrip_with p s' with
      | EmptyString => if p c then EmptyString else String c EmptyString
      | r => String c r
      end
  | EmptyString => EmptyString
  end.

Definition strip_with (p : ascii → bool) (s : string) : string :=
  rstrip_with p (lstrip_with p s).

(** [s.strip()] *)
Definition strip (s : string) : string := strip_with isspace s.

(** [s.rstrip(ch)] for a one-character argument. *)
Definition rstrip_char (ch : ascii) (s : string) : string :=
  rstrip_with (λ c, bool_decide (c = ch)) s.

Definition lower_char (c : ascii) : ascii :=
  let n := code c in
  if ((65 <=? n) && (n <=? 90)
      || (192 <=? n) && (n <=? 222) && negb (n =? 215))%N
  then ascii_of_N (n + 32)
  else c.

(** [s.lower()] *)
Fixpoint lower (s : string) : string :=
  match s with
  | String c s' => String (lower_char c) (lower s')
  | EmptyString => EmptyString
  end.

(** [s.split(sep)] for a one-character separator: never an empty list. *)
Fixpoint split (sep : ascii) (s : string) : list string :=
  match s with
  | EmptyString => [EmptyString]
  | String c s' =>
      if bool_decide (c = sep) then EmptyString :: split sep s'
      else match split sep s' with
           | part :: parts => String c part :: parts
           | [] => [String c EmptyString]
           end
  end.

(** [sep.join(parts)] *)
Fixpoint join (sep : string) (parts : list string) : string :=
  match parts with
  | [] => EmptyString
  | p :: rest =>
      match rest with
      | [] => p
      | _ :: _ => p +:+ sep +:+ join sep rest
      end
  end.

(** [s[:n]] *)
Fixpoint prefix (n : nat) (s : string) : string :=
  match n, s with
  | S n', String c s' => String c (prefix n' s')
  | _, _ => EmptyString
  end.

(** [len(s)] *)
Definition len (s : string) : nat := String.length s.

(** Truth value of a [str]: [bool(s)]. *)
Definition truthy (s : string) : bool :=
  match s with EmptyString => false | String _ _ => true end.

(** *** [int(s)]

    Base-10 parsing as the interpreter does it: surrounding white
    space is dropped, one sign is allowed, single underscores may
    separate digits, and a text with more digits than
    [sys.get_int_max_str_digits()] is refused.  The importer leaves
    that limit at the value the interpreter starts with.  [None]
    stands for [ValueError]. *)

Definition int_space (c : ascii) : bool :=
  let n := code c in
  ((9 <=? n) && (n <=? 13) || (n =? 32) || (n =? 133) || (n =? 160))%N.

Definition digit (c : ascii) : option Z :=
  let n := code c in
  if ((48 <=? n) && (n <=? 57))%N then Some (Z.of_N n - 48)%Z else None.

Fixpoint int_digits (acc : Z) (after_digit : bool) (s : string) : option Z :=
  match s with
  | EmptyString => if after_digit then Some acc else None
  | String c s' =>
      if bool_decide (c = "_"%char)
      then (if after_digit then int_digits acc false s' else None)
      else match digit c with
           | Some d => int_digits (10 * acc + d)%Z true s'
           | None => None
           end
  end.

(** The limit on the digits of a decimal text. *)
Definition int_max_str_digits : N := 4300.

(** The number of decimal digits among the characters of [s]; signs,
    underscores and white space do not count, leading zeros do. *)
Fixpoint count_digits (s : string) : N :=
  match s with
  | EmptyString => 0%N
  | String c s' =>
      match digit c with
      | Some _ => N.succ (count_digits s')
      | None => count_digits s'
      end
  end.

(** The text that follows the sign. *)
Definition int_body (r : string) : option Z :=
  if (count_digits r <=? int_max_str_digits)%N then int_digits 0 false r
  else None.

Definition int (s : string) : option Z :=
  let t := strip_with int_space s in
  match t with
  | String c r =>
      if bool_decide (c = "+"%char) then int_body r
      else if bool_decide (c = "-"%char) then Z.opp <$> int_body r
      else int_body t
  | EmptyString => None
  end.

End PyStr.

(** ** Cells, rows and items *)

(** A cell of a spreadsheet row as the pipeline observes it.  The code
    only ever tests a value for [None], tests it for a float NaN, and
    otherwise reads [str(value)]; a value of any other kind is therefore
    represented by that rendering. *)
Inductive Cell : Type :=
  | CNone                 (* [None]; also what [row.get] gives for a missing column *)
  | CNaN                  (* a float NaN, pandas' marker of an empty cell *)
  | CVal (repr : string)  (* any other value; [repr] is [str(value)] *).

(** Values an item ([Dict[str, Any]]) can hold.  [VNone] is Python's
    [None], which JSON writes as [null]. *)
Inductive PyVal : Type :=
  | VNone
  | VStr (s : string)
  | VInt (z : Z)
  | VList (l : list string).

Abbreviation Row := (gmap string Cell).
Abbreviation Item := (gmap string PyVal).

(** [row.get(key)] *)
Definition row_get (row : Row) (key : string) : Cell :=
  default CNone (row !! key).

(** Truth value of an [Optional[str]] and of an [Optional[List[str]]]. *)
Definition truthy_ostr (o : option string) : bool :=
  match o with Some s => PyStr.truthy s | None => false end.

Definition truthy_olist (o : option (list string)) : bool :=
  match o with Some (_ :: _) => true | _ => false end.

(** ** Value coercion utilities

    Each function starts with the test
    [value is None or (isinstance(value, float) and pd.isna(value))],
    which is the match on [CNone] and [CNaN]. *)

Definition _is_missing_str (s : string) : bool :=
  let ls := PyStr.lower (PyStr.strip s) in
  bool_decide (ls ∈ [""; "none"; "nan"; "null"]).

Definition to_str (value : Cell) : option string :=
  match value with
  | CVal repr =>
      let s := PyStr.strip repr in
      if _is_missing_str s then None else Some s
  | CNone | CNaN => None
  end.

Definition to_clean_str (value : Cell) : string :=
  match to_str value with
  | Some s => s
  | None => ""
  end.

Definition to_int (value : Cell) : option Z :=
  match value with
  | CVal repr => PyStr.int (PyStr.strip repr)
  | CNone | CNaN => None
  end.

Definition to_list_from_csv (value : Cell) : option (list string) :=
  let s := to_str value in
  if negb (truthy_ostr s) then None
  else
    Some (PyStr.strip <$>
            List.filter (λ part, PyStr.truthy (PyStr.strip part))
                        (PyStr.split "," (default "" s))).

(** ** Index classifier *)

Definition vocabulary : list string :=
  [ "cuepisode"; "cumovie"; "cuseason"; "cuserie";
    "episode"; "livetv"; "movie"; "program"; "season"; "serie" ].

Definition ALLOWED_INDEXES : gset string := list_to_set vocabulary.

(** Lines 73-77: the tokens of the explicit [indexes] cell. *)
Definition explicit_indexes (row : Row) : list string :=
  match row_get row "indexes" with
  | CVal repr =>
      (λ p, PyStr.lower (PyStr.strip p)) <$>
        List.filter (λ p, PyStr.truthy (PyStr.strip p)) (PyStr.split "," repr)
  | CNone | CNaN => []
  end.

(** Lines 80-94: the tags derived from the [type] cell. *)
Definition type_indexes (row : Row) : list string :=
  let t := to_str (row_get row "type") in
  if truthy_ostr t then
    let tl := PyStr.lower (default "" t) in
    if bool_decide (tl = "movie") then ["cumovie"; "movie"]
    else if bool_decide (tl ∈ ["episode"; "ep"; "part"]) then ["cuepisode"; "episode"]
    else if bool_decide (tl ∈ ["season"]) then ["cuseason"; "season"]
    else if bool_decide (tl ∈ ["series"; "serie"; "show"]) then ["cuserie"; "serie"]
    else if bool_decide (tl ∈ ["livetv"; "live"; "tv"]) then ["livetv"]
    else if bool_decide (tl ∈ ["program"]) then ["program"]
    else []
  else [].

(** Lines 73-98: the list [indexes] as it stands when the
    deduplication loop starts. *)
Definition working_indexes (row : Row) : list string :=
  let indexes := explicit_indexes row ++ type_indexes row in
  match indexes with
  | [] => ["cuepisode"]
  | _ :: _ => indexes
  end.

(** Lines 101-107: one iteration of the loop over [indexes], on the
    pair ([uniq], [seen]). *)
Definition dedup_step (st : list string * gset string) (ix : string)
  : list string * gset string :=
  let '(uniq, seen) := st in
  if PyStr.truthy ix
     && bool_decide (ix ∈ ALLOWED_INDEXES)
     && negb (bool_decide (ix ∈ seen))
  then (uniq ++ [ix], seen ∪ {[ ix ]})
  else (uniq, seen).

Definition dedup_allowed (indexes : list string) : list string :=
  fst (fold_left dedup_step indexes ([], ∅)).

Definition map_indexes_from_row (row : Row) : list string :=
  dedup_allowed (working_indexes row).

(** *** The classifier as the specification words it *)

(** The fixed synonym table: type names on the left, tags on the right. *)
Definition synonym_table : list (list string * list string) :=
  [ (["movie"], ["cumovie"; "movie"]);
    (["episode"; "ep"; "part"], ["cuepisode"; "episode"]);
    (["season"], ["cuseason"; "season"]);
    (["series"; "serie"; "show"], ["cuserie"; "serie"]);
    (["livetv"; "live"; "tv"], ["livetv"]);
    (["program"], ["program"]) ].

(** All tags of the table entries that list the type name. *)
Definition table_tags (tl : string) : list string :=
  mjoin (snd <$> List.filter (λ e, bool_decide (tl ∈ e.1)) synonym_table).

(** The comma-split tokens of a cell text, trimmed and lower-cased;
    blank tokens carry no tag and are not tokens. *)
Definition cell_tokens (text : string) : list string :=
  List.filter PyStr.truthy
    ((λ p, PyStr.lower (PyStr.strip p)) <$> PyStr.split "," text).

(** Steps 1-3 of the classifier: explicit tokens, then the tags of the
    type matched without regard to case, then the default. *)
Definition spec_working_list (row : Row) : list string :=
  let explicit :=
    match row_get row "indexes" with
    | CVal text => cell_tokens text
    | CNone | CNaN => []
    end in
  let derived :=
    match to_str (row_get row "type") with
    | Some t => table_tags (PyStr.lower t)
    | None => []
    end in
  if bool_decide (explicit ++ derived = []) then ["cuepisode"]
  else explicit ++ derived.

(** No explicit tag cell: the column is missing or the cell is empty. *)
Definition no_cell (c : Cell) : Prop := c = CNone ∨ c = CNaN.

(** The type is missing, or its name is not in the synonym table. *)
Definition unrecognized_type (row : Row) : Prop :=
  match to_str (row_get row "type") with
  | Some t => Forall (λ e, PyStr.lower t ∉ e.1) synonym_table
  | None => True
  end.

(** *** The deduplication loop as a recursive function *)

(** What the loop keeps of a list, given the tags already kept. *)
Fixpoint first_seen (kept : list string) (l : list string) : list string :=
  match l with
  | [] => []
  | ix :: l' =>
      if PyStr.truthy ix && bool_decide (ix ∈ ALLOWED_INDEXES)
         && negb (bool_decide (ix ∈ kept))
      then ix :: first_seen (kept ++ [ix]) l'
      else first_seen kept l'
  end.

(** Position of the first occurrence of [x] in [l]. *)
Fixpoint first_index (x : string) (l : list string) : option nat :=
  match l with
  | [] => None
  | y :: l' => if bool_decide (x = y) then Some 0 else S <$> first_index x l'
  end.

(** ** Field normaliser *)

(** [a or b] on two strings. *)
Definition str_or (a b : string) : string :=
  if PyStr.truthy a then a else b.

(** An [Optional[str]] passed where a cell value is expected. *)
Definition cell_of_ostr (o : option string) : Cell :=
  match o with Some s => CVal s | None => CNone end.

(** [item[key] = value] when [value] is there, nothing otherwise: the
    shape of the guarded assignments of [build_item_from_row]. *)
Definition set_if {A} (key : string) (mk : A → PyVal) (value : option A)
    (item : Item) : Item :=
  match value with
  | Some v => <[key := mk v]> item
  | None => item
  end.

(** [x if x else None] for an optional list: what [if genres:] lets through. *)
Definition nonempty_list (o : option (list string)) : option (list string) :=
  if truthy_olist o then o else None.

Section Normalizer.

(** [ast.literal_eval] belongs to the interpreter's library.  It enters
    as the one observation [parse_platform_name] makes of it: whether
    the text evaluates to a [dict] and, if so, [str(k)] for each of its
    keys.  [None] covers both an exception and a value that is not a
    [dict]. *)
Variable literal_eval_dict_keys : string → option (list string).

Definition parse_platform_name (value : Cell) : option string :=
  match value with
  | CVal repr =>
      let s := PyStr.strip repr in
      if negb (PyStr.truthy s) then None
      else
        match literal_eval_dict_keys s with
        | Some keys => Some (PyStr.join "," (merge_sort String.le keys))
        | None => Some s
        end
  | CNone | CNaN => None
  end.

(** Lines 121-127. *)
Definition year_of_row (row : Row) : option Z :=
  let date_raw := to_str (row_get row "date") in
  if truthy_ostr date_raw && bool_decide (4 ≤ PyStr.len (default "" date_raw))
  then PyStr.int (PyStr.prefix 4 (default "" date_raw))
  else None.

(** Lines 132-137. *)
Definition semantic_text_of (name description content_type channel_genre : string)
    (genres casts : option (list string)) : string :=
  let semantic_parts :=
    List.filter PyStr.truthy [name; description; content_type; channel_genre] in
  let semantic_parts :=
    if truthy_olist genres
    then semantic_parts ++ [PyStr.join ", " (default [] genres)]
    else semantic_parts in
  let semantic_parts :=
    if truthy_olist casts
    then semantic_parts ++ [PyStr.join ", " (default [] casts)]
    else semantic_parts in
  match semantic_parts with
  | [] => ""
  | _ :: _ => PyStr.join " | " semantic_parts
  end.

Definition build_item_from_row (row : Row) : Item :=
  let name :=
    str_or (to_clean_str (row_get row "name"))
           (to_clean_str (row_get row "engName")) in
  let description :=
    str_or (to_clean_str (row_get row "description"))
           (to_clean_str (row_get row "engDescription")) in
  let content_id := to_int (row_get row "contentId") in
  let genres := to_list_from_csv (row_get row "genres") in
  let casts := to_list_from_csv (row_get row "casts") in
  let poster := to_clean_str (row_get row "poster") in
  let content_type := to_clean_str (row_get row "type") in
  let channel_genre := to_clean_str (row_get row "channelGenre") in
  let age_limit := to_clean_str (row_get row "rtukRatingShort") in
  let year := year_of_row row in
  let platform_name := parse_platform_name (row_get row "platform") in
  let indexes := map_indexes_from_row row in
  let semantic_text :=
    semantic_text_of name description content_type channel_genre genres casts in
  let item : Item := ∅ in
  let item := <["name" := VStr name]> item in
  let item := <["description" := VStr description]> item in
  let item := set_if "contentId" VInt content_id item in
  let item := set_if "genres" VList (nonempty_list genres) item in
  let item := set_if "casts" VList (nonempty_list casts) item in
  let item := <["poster" := VStr poster]> item in
  let item := <["ageLimit" := VStr age_limit]> item in
  let item := <["type" := VStr content_type]> item in
  let item := <["channelGenre" := VStr channel_genre]> item in
  let item := set_if "year" VInt year item in
  let item :=
    <["platform_name" := VStr (to_clean_str (cell_of_ostr platform_name))]> item in
  let item := set_if "indexes" VList (nonempty_list (Some indexes)) item in
  let item := <["semantic_text" := VStr semantic_text]> item in
  item.

End Normalizer.

(** ** Collection router *)

(** Line 212: [args.collection.strip() if args.collection else None]. *)
Definition force_collection_of (collection_arg : option string) : option string :=
  if truthy_ostr collection_arg
  then Some (PyStr.strip (default "" collection_arg))
  else None.

(** [item.get("indexes", [])].  [build_item_from_row] stores nothing but
    a list of strings under this key. *)
Definition item_indexes (item : Item) : list string :=
  match item !! "indexes" with
  | Some (VList idxs) => idxs
  | _ => []
  end.

(** Lines 222-226: the targets of one item. *)
Definition route_targets (force_collection : option string)
    (existing : gset string) (item : Item) : list string :=
  if truthy_ostr force_collection then [default "" force_collection]
  else
    List.filter
      (λ ix, bool_decide (existing = ∅) || bool_decide (ix ∈ existing))
      (item_indexes item).

(** ** Delivery of one item: [send_row] *)

(** A parsed JSON document, as [resp.json()] returns it (numbers with a
    fractional part are left out). *)
#[warnings="-register-all"] Inductive Json : Type :=
  | JNull
  | JBool (b : bool)
  | JInt (z : Z)
  | JStr (s : string)
  | JArr (elems : list Json)
  | JObj (fields : list (string * Json)).

Fixpoint assoc (key : string) (fields : list (string * Json)) : option Json :=
  match fields with
  | [] => None
  | (k, v) :: rest => if bool_decide (k = key) then Some v else assoc key rest
  end.

(** The truth value Python gives a parsed JSON value. *)
Definition truthy_json (v : Json) : bool :=
  match v with
  | JNull => false
  | JBool b => b
  | JInt z => negb (z =? 0)%Z
  | JStr s => PyStr.truthy s
  | JArr elems => match elems with [] => false | _ :: _ => true end
  | JObj fields => match fields with [] => false | _ :: _ => true end
  end.

Inductive Exn : Type :=
  | RuntimeError (status : Z) (data : Json)  (* "API error: status=.., data=.." *)
  | AttributeError                           (* [data] has no method [get] *)
  | RequestException (msg : string)          (* raised by [session.post] *)
  | OutputError (msg : string)               (* raised by [print]: [UnicodeEncodeError], [OSError] *).

Inductive Result (A : Type) : Type :=
  | Ok (a : A)
  | Raise (e : Exn).
Arguments Ok {A} a.
Arguments Raise {A} e.

Definition raises {A} (r : Result A) : bool :=
  match r with Raise _ => true | Ok _ => false end.

(** [data.get(key)]: only a [dict] has it; a missing key gives [None]. *)
Definition json_get (data : Json) (key : string) : Result Json :=
  match data with
  | JObj fields => Ok (default JNull (assoc key fields))
  | _ => Raise AttributeError
  end.

(** What [send_row] reads of an HTTP response; [json] is [None] when
    [resp.json()] raises. *)
Record Response : Type := {
  status_code : Z;
  text : string;
  json : option Json;
}.

(** Lines 167-173: what [send_row] does with the response. *)
Definition send_row_result (resp : Response) : Result Json :=
  let data :=
    match json resp with
    | Some d => d
    | None =>
        JObj [ ("error",
                JStr ("Non-JSON response (status " +:+ pretty (status_code resp) +:+ ")"));
               ("text", JStr (text resp)) ]
    end in
  if negb (status_code resp =? 200)%Z then Raise (RuntimeError (status_code resp) data)
  else
    match json_get data "error" with
    | Raise e => Raise e
    | Ok err =>
        if truthy_json err then Raise (RuntimeError (status_code resp) data)
        else
          match json_get data "errors" with
          | Raise e => Raise e
          | Ok errs =>
              if truthy_json errs then Raise (RuntimeError (status_code resp) data)
              else Ok data
          end
    end.

(** What [session.post] comes back with. *)
Inductive PostResult : Type :=
  | PostRaises (msg : string)
  | PostResponse (resp : Response).

(** Line 165: the URL of the import route. *)
Definition import_url (api_url user_id collection : string) : string :=
  PyStr.rstrip_char "/" api_url +:+ "/db/" +:+ user_id +:+ "/import/" +:+ collection.

(** ** The orchestrator's loop over rows *)

(** The lines the loop prints, kept as data. *)
Inductive Line : Type :=
  | SkippedEmptyRow (idx : nat)
  | SkipNoTargets (idx : nat) (indexes : option PyVal)
  | FailTarget (idx : nat) (coll : string) (e : Exn)
  | OkRow (idx : nat) (name : PyVal) (targets : list string)
  | FailRow (idx : nat) (e : Exn).

(** The way one iteration of the loop ends.  [Raised] is the handler
    of line 244; [counted] tells whether [success += 1] of line 240 had
    run before the exception. *)
Inductive RowOutcome : Type :=
  | SkippedEmpty
  | SkippedNoTargets
  | Succeeded
  | Failed
  | Raised (counted : bool).

Section Orchestrator.

(** The remote side: its state and the effect of one POST of a batch
    of items to a URL. *)
Context {World : Type}.
Variable post : World → string → list Item → World * PostResult.

(** The standard output: [print_stdout line] is [None] when [print]
    writes the line and [Some e] when it raises [e], as it does for a
    text the stream's encoding cannot write or on a closed pipe.  The
    lines for [sys.stderr] are taken as written: that stream replaces
    what it cannot encode, and a [sys.stderr] that cannot be written
    to at all is outside this model. *)
Variable print_stdout : Line → option Exn.

Variable literal_eval_dict_keys : string → option (list string).
Variables api_url user_id : string.
Variable force_collection : option string.
Variable existing : gset string.

Record RunState : Type := {
  success : nat;
  failed : nat;
  world : World;
  printed : list Line;
}.

Definition send_row (w : World) (collection : string) (item : Item)
  : World * Result Json :=
  match post w (import_url api_url user_id collection) [item] with
  | (w', PostRaises msg) => (w', Raise (RequestException msg))
  | (w', PostResponse resp) => (w', send_row_result resp)
  end.

(** Lines 232-238: the loop over the targets of one row, on the
    triple (remote state, [row_ok], printed lines). *)
Fixpoint deliver (idx : nat) (item : Item) (targets : list string)
    (w : World) (row_ok : bool) (out : list Line)
  : World * bool * list Line :=
  match targets with
  | [] => (w, row_ok, out)
  | coll :: rest =>
      match send_row w coll item with
      | (w', Ok _) => deliver idx item rest w' row_ok out
      | (w', Raise e) =>
          deliver idx item rest w' false (out ++ [FailTarget idx coll e])
      end
  end.

(** Lines 244-246: the handler of the loop body, from the state the
    exception leaves. *)
Definition on_exception (st : RunState) (idx : nat) (e : Exn) : RunState :=
  {| success := success st; failed := S (failed st); world := world st;
     printed := printed st ++ [FailRow idx e] |}.

(** A [print] on the standard output inside the [try] of the body:
    the iteration ends as [o] when the line is written, and in the
    handler when [print] raises. *)
Definition print_line (st : RunState) (idx : nat) (line : Line)
    (o : RowOutcome) (counted : bool) : RunState * RowOutcome :=
  match print_stdout line with
  | None =>
      ({| success := success st; failed := failed st; world := world st;
          printed := printed st ++ [line] |}, o)
  | Some e => (on_exception st idx e, Raised counted)
  end.

(** Lines 215-246: one iteration of the loop over rows.  [deliver]
    catches what [send_row] raises; the other steps of the body that
    can raise are the three [print]s on the standard output, and the
    one of line 241 runs after [success += 1]. *)
Definition process_row (st : RunState) (idx : nat) (row : Row)
  : RunState * RowOutcome :=
  let item := build_item_from_row literal_eval_dict_keys row in
  if bool_decide (size item = 0) then
    print_line st idx (SkippedEmptyRow idx) SkippedEmpty false
  else
    let targets := route_targets force_collection existing item in
    match targets with
    | [] =>
        print_line st idx (SkipNoTargets idx (item !! "indexes"))
          SkippedNoTargets false
    | _ :: _ =>
        let '(w, row_ok, out) :=
          deliver idx item targets (world st) true (printed st) in
        if row_ok then
          print_line
            {| success := S (success st); failed := failed st; world := w;
               printed := out |}
            idx
            (OkRow idx (default (VStr "<no name>") (item !! "name")) targets)
            Succeeded true
        else
          ({| success := success st; failed := S (failed st); world := w;
              printed := out |}, Failed)
    end.

(** Lines 214-249: the loop and the exit status. *)
Fixpoint run_rows (st : RunState) (idx : nat) (rows : list Row) : RunState :=
  match rows with
  | [] => st
  | row :: rest => run_rows (process_row st idx row).1 (S idx) rest
  end.


(** *** One delivery attempt per target, stated on its own *)

(** The attempts made for a list of targets, each from the remote
    state the previous one left, whatever the previous ones returned. *)
Fixpoint attempts (item : Item) (targets : list string) (w : World)
  : list (string * Result Json) :=
  match targets with
  | [] => []
  | coll :: rest =>
      let '(w', r) := send_row w coll item in
      (coll, r) :: attempts item rest w'
  end.

(** The remote state once every target has been posted to in turn. *)
Definition world_after (item : Item) (targets : list string) (w : World) : World :=
  fold_left (λ w coll, (send_row w coll item).1) targets w.

End Orchestrator.

(** ** The insertion report of the import route ([db.py]) *)

(** What the handler reads of the value [insert_many] returns:
    [has_errors] is [None] when the attribute is missing, [batch_errors]
    is [None] when [getattr(result, "errors", None)] is, and otherwise
    lists [str(e)] for each [e] of [result.errors]. *)
Record BatchResult : Type := {
  has_errors : option bool;
  batch_errors : option (list string);
}.

(** Lines 198-203: the pair ([inserted], [errors]). *)
Definition insert_report (n_items : nat) (result : BatchResult)
  : nat * list string :=
  if default false (has_errors result) then
    (0, if truthy_olist (batch_errors result)
        then default [] (batch_errors result)
        else ["insert_many failed"])
  else (n_items, []).

(** The JSON content and status of a reply of the route. *)
Record ImportReply : Type := {
  reply_status : Z;
  inserted : nat;
  errors : list string;
  error : string;
}.

(** How a call of the handler goes, as far as its reply depends on it. *)
Inductive HandlerRun : Type :=
  | RaisesBeforeCheck (msg : string)  (* the user lookup raises *)
  | RaisesAfterCheck (msg : string)   (* normalising, connecting, creating or inserting raises *)
  | Inserts (result : BatchResult)    (* [insert_many] returns [result] *).

Definition reply_500 (msg : string) : ImportReply :=
  {| reply_status := 500; inserted := 0; errors := [msg]; error := msg |}.

(** [import_collection_data]; [items] is [None] when [payload.get("items")]
    is not a list. *)
Definition import_collection_data (items : option (list Json)) (run : HandlerRun)
  : ImportReply :=
  match run with
  | RaisesBeforeCheck msg => reply_500 msg
  | RaisesAfterCheck _ | Inserts _ =>
      match items with
      | None | Some [] =>
          {| reply_status := 400; inserted := 0;
             errors := ["items must be a non-empty list"]; error := "" |}
      | Some ((_ :: _) as its) =>
          match run with
          | Inserts result =>
              let '(n, errs) := insert_report (length its) result in
              {| reply_status := 200; inserted := n; errors := errs; error := "" |}
          | RaisesBeforeCheck msg | RaisesAfterCheck msg => reply_500 msg
          end
      end
  end.

(** The reply as the client receives it. *)
Definition reply_json (r : ImportReply) : Json :=
  JObj [ ("inserted", JInt (Z.of_nat (inserted r)));
         ("errors", JArr (JStr <$> errors r));
         ("error", JStr (error r)) ].

Definition reply_response (r : ImportReply) (body_text : string) : Response :=
  {| status_code := reply_status r; text := body_text; json := Some (reply_json r) |}.

(** No override: none was given, or a blank one, which line 212 turns
    into the empty string and line 222 tests as false. *)
Definition no_override (force_collection : option string) : Prop :=
  force_collection = None ∨ force_collection = Some "".

(** The fields of an item that are always written, and all of them. *)
Definition text_fields : list string :=
  [ "name"; "description"; "poster"; "ageLimit"; "type"; "channelGenre";
    "platform_name"; "semantic_text" ].

Definition optional_fields : list string :=
  [ "contentId"; "genres"; "casts"; "year"; "indexes" ].

(** *** The failure of a delivery as the specification words it *)

Definition reports_error_string (resp : Response) : Prop :=
  ∃ d s, json resp = Some d ∧ json_get d "error" = Ok (JStr s) ∧ s ≠ "".

Definition reports_errors_list (resp : Response) : Prop :=
  ∃ d l, json resp = Some d ∧ json_get d "errors" = Ok (JArr l) ∧ l ≠ [].

Definition spec_delivery_fails (resp : Response) : Prop :=
  status_code resp ≠ 200%Z
  ∨ json resp = None
  ∨ reports_error_string resp
  ∨ reports_errors_list resp.

(** *** The failure of a delivery as the code tests it *)

(** The entry [key] of a JSON object has a true truth value. *)
Definition entry_truthy (d : Json) (key : string) : Prop :=
  ∃ fields, d = JObj fields ∧ truthy_json (default JNull (assoc key fields)) = true.

Definition is_object (d : Json) : Prop := ∃ fields, d = JObj fields.

Definition delivery_fails (resp : Response) : Prop :=
  status_code resp ≠ 200%Z
  ∨ json resp = None
  ∨ ∃ d, json resp = Some d
         ∧ (¬ is_object d ∨ entry_truthy d "error" ∨ entry_truthy d "errors").

(** A body of the shape the import route sends: an object whose
    "error", when there, is a string and whose "errors", when there, is
    a list. *)
Definition endpoint_shaped (d : Json) : Prop :=
  ∃ fields,
    d = JObj fields
    ∧ match assoc "error" fields with
      | None | Some JNull | Some (JStr _) => True
      | Some _ => False
      end
    ∧ match assoc "errors" fields with
      | None | Some JNull | Some (JArr _) => True
      | Some _ => False
      end.

(** The lines printed for the attempts that raised. *)
Definition fail_lines (idx : nat) (atts : list (string * Result Json)) : list Line :=
  omap (λ a, match a.2 with
             | Raise e => Some (FailTarget idx a.1 e)
             | Ok _ => None
             end) atts.

(** An attempt that returned. *)
Definition attempt_ok (a : string * Result Json) : Prop := raises a.2 = false.

(** ** Concrete data for the examples *)

(** A 200 reply that reports its per-item errors as an object keyed by
    position instead of a list. *)
Definition errors_as_object : Response :=
  {| status_code := 200;
     text := "";
     json := Some (JObj [ ("inserted", JInt 0);
                          ("errors", JObj [("0", JStr "boom")]);
                          ("error", JStr "") ]) |}.

(** A 200 reply whose JSON body is an array. *)
Definition array_body : Response :=
  {| status_code := 200; text := "[]"; json := Some (JArr []) |}.

(** A remote that keeps the URLs of the batches it stored, and answers
    500 to every batch for the collection [cumovie]. *)
Definition demo_post (w : list string) (url : string) (items : list Item)
  : list string * PostResult :=
  if bool_decide (url = "http://host/db/u1/import/cumovie")
  then (w, PostResponse
             {| status_code := 500; text := "";
                json := Some (reply_json (reply_500 "boom")) |})
  else (w ++ [url],
        PostResponse
          {| status_code := 200; text := "";
             json := Some (reply_json {| reply_status := 200; inserted := 1;
                                         errors := []; error := "" |}) |}).

(** No line of the empty-row branch among the printed lines. *)
Definition no_empty_row_line (out : list Line) : Prop :=
  ∀ i, SkippedEmptyRow i ∉ out.

(** Rows for the examples. *)
Definition movie_row : Row := {[ "type" := CVal "Movie" ]}.

Definition documentary_row : Row := {[ "type" := CVal "documentary" ]}.

Definition tagged_row : Row := {[ "indexes" := CVal "bogus, movie" ]}.

Definition scenario_row : Row :=
  <["name" := CVal "X"]>
    (<["type" := CVal "movie"]>
       (<["date" := CVal "2019-07-01"]> {[ "genres" := CVal "Action,Drama" ]})).

(** No text is taken for a [dict] literal. *)
Definition no_dict_literal (s : string) : option (list string) := None.

Definition demo_start : @RunState (list string) :=
  {| success := 0; failed := 0; world := []; printed := [] |}.

(** A standard output that writes every line. *)
Definition demo_print (line : Line) : option Exn := None.

(** [s] has ASCII characters only. *)
Fixpoint is_ascii (s : string) : bool :=
  match s with
  | EmptyString => true
  | String c s' => (PyStr.code c <? 128)%N && is_ascii s'
  end.

(** A standard output whose encoding is ASCII: [print] raises on the
    OK line of a row whose name has a character of another kind. *)
Definition ascii_print (line : Line) : option Exn :=
  match line with
  | OkRow _ (VStr name) _ =>
      if is_ascii name then None
      else Some (OutputError "'ascii' codec can't encode character")
  | _ => None
  end.

(** A documentary whose name has an accented letter. *)
Definition accented_row : Row :=
  <["name" := CVal (String "A" (String "m" (String "233" "lie")))]>
    documentary_row.


(** ** Notions used by the further properties *)

(** The texts that stand for a missing cell, once trimmed and lower-cased. *)
Definition sentinels : list string := [""; "none"; "nan"; "null"].

(** The character [c] occurs in [s]. *)
Fixpoint has_char (c : ascii) (s : string) : bool :=
  match s with
  | EmptyString => false
  | String c' s' => bool_decide (c' = c) || has_char c s'
  end.

(** [s] consists of decimal digits. *)
Fixpoint all_digits (s : string) : bool :=
  match s with
  | EmptyString => true
  | String c s' => bool_decide (is_Some (PyStr.digit c)) && all_digits s'
  end.

(** The number a string of decimal digits writes, after the digits [acc]. *)
Fixpoint decimal_value (acc : Z) (s : string) : Z :=
  match s with
  | EmptyString => acc
  | String c s' => decimal_value (10 * acc + default 0%Z (PyStr.digit c)) s'
  end.

(** The text of [n] nines. *)
Fixpoint nines (n : nat) : string :=
  match n with
  | O => EmptyString
  | S n' => String "9" (nines n')
  end.

(** [s] is empty or starts with a character that [p] rejects. *)
Definition head_kept (p : ascii → bool) (s : string) : Prop :=
  match s with
  | String c _ => p c = false
  | EmptyString => True
  end.

#[global] Instance RowOutcome_eq_dec : EqDecision RowOutcome.
Proof. solve_decision. Defined.

(** The number of rows of a run that ended in a given way. *)
Definition count_outcome (o : RowOutcome) (outcomes : list RowOutcome) : nat :=
  length (List.filter (λ o', bool_decide (o' = o)) outcomes).

(** [n] slashes. *)
Fixpoint slashes (n : nat) : string :=
  match n with
  | O => EmptyString
  | S n' => String "/" (slashes n')
  end.

Section RunOutcomes.

Context {World : Type}.
Variable post : World → string → list Item → World * PostResult.
Variable print_stdout : Line → option Exn.
Variable literal_eval_dict_keys : string → option (list string).
Variables api_url user_id : string.
Variable force_collection : option string.
Variable existing : gset string.


(** The targets of a row. *)
Definition row_targets (row : Row) : list string :=
  route_targets force_collection existing
    (build_item_from_row literal_eval_dict_keys row).

(** The remote state after the deliveries of a list of rows, each to
    its own targets, one row after the other. *)
Definition world_after_rows (rows : list Row) (w : World) : World :=
  fold_left
    (λ w row,
       world_after post api_url user_id
         (build_item_from_row literal_eval_dict_keys row) (row_targets row) w)
    rows w.

End RunOutcomes.

(** ** The schema the import route creates ([db.py], lines 165-193) *)

Inductive DataType : Type :=
  | TEXT
  | TEXT_ARRAY
  | NUMBER.

Definition common_text_fields : list string :=
  [ "name"; "description"; "type"; "channelGenre"; "poster"; "ageLimit";
    "semantic_text" ].

(** The list [props], built by the three loops and the last [append]. *)
Definition schema_props : list (string * DataType) :=
  let props := [] in
  let props := props ++ ((λ p, (p, TEXT)) <$> common_text_fields) in
  let props := props ++ ((λ p, (p, TEXT_ARRAY)) <$> ["genres"; "casts"; "indexes"]) in
  let props := props ++ ((λ p, (p, NUMBER)) <$> ["year"; "contentId"]) in
  props ++ [("platform_name", TEXT)].

(** A value of an item can be stored under a declared type. *)
Definition fits (v : PyVal) (ty : DataType) : Prop :=
  match v, ty with
  | VStr _, TEXT | VList _, TEXT_ARRAY | VInt _, NUMBER => True
  | _, _ => False
  end.

(** ** The normaliser of the import route ([db.py], lines 135-156) *)

(** An item as JSON: what becomes of it between the importer's
    [session.post(json=...)] and the route's parsed payload. *)
Definition pyval_json (v : PyVal) : Json :=
  match v with
  | VNone => JNull
  | VStr s => JStr s
  | VInt z => JInt z
  | VList l => JArr (JStr <$> l)
  end.

Definition item_json (item : Item) : gmap string Json := pyval_json <$> item.

(** Lines 139-140 for one key [k]. *)
Definition split_field (x : gmap string Json) (k : string) : gmap string Json :=
  match x !! k with
  | Some (JStr s) =>
      <[k := JArr (JStr <$> (PyStr.strip <$>
                 List.filter (λ p, PyStr.truthy (PyStr.strip p))
                             (PyStr.split "," s)))]> x
  | _ => x
  end.

(** [x.get("year") is None] *)
Definition year_is_none (x : gmap string Json) : bool :=
  match x !! "year" with
  | None | Some JNull => true
  | Some _ => false
  end.

Section ServerNormalizer.

(** [str(v)] of a list or of a dict is [repr(v)], which enters as a
    parameter; on the other values [str] is written out. *)
Variable repr_container : Json → string.

Definition py_str (v : Json) : string :=
  match v with
  | JNull => "None"
  | JBool true => "True"
  | JBool false => "False"
  | JInt z => pretty z
  | JStr s => s
  | JArr _ | JObj _ => repr_container v
  end.

(** [norm_item] on a JSON object, as a finite map of its entries. *)
Definition norm_item (obj : gmap string Json) : gmap string Json :=
  let x := obj in
  let x := fold_left split_field ["genres"; "casts"; "indexes"] x in
  let x :=
    match x !! "platform" with
    | Some (JObj pf) =>
        if bool_decide (is_Some (assoc "name" pf))
           && negb (bool_decide (is_Some (x !! "platform_name")))
        then <["platform_name" := default JNull (assoc "name" pf)]> x
        else x
    | _ => x
    end in
  let x :=
    match x !! "date" with
    | Some (JStr d) =>
        if bool_decide (4 ≤ PyStr.len d) && year_is_none x
        then match PyStr.int (PyStr.prefix 4 d) with
             | Some y => <["year" := JInt y]> x
             | None => x
             end
        else x
    | _ => x
    end in
  let x :=
    match x !! "rtukRatingShort" with
    | Some r =>
        if negb (bool_decide (is_Some (x !! "ageLimit")))
        then <["ageLimit" := JStr (PyStr.strip (py_str r))]> x
        else x
    | None => x
    end in
  x.

End ServerNormalizer.

(** The value lines 139-140 leave under an array key that held [o]. *)
Definition split_value (o : option Json) : option Json :=
  match o with
  | Some (JStr s) =>
      Some (JArr (JStr <$> (PyStr.strip <$>
              List.filter (λ p, PyStr.truthy (PyStr.strip p))
                          (PyStr.split "," s))))
  | _ => o
  end.

(** The entry of the normalised object under the key [k], read off the
    object [obj] that came in. *)
Definition norm_value (repr_container : Json → string) (obj : gmap string Json)
    (k : string) : option Json :=
  if bool_decide (k ∈ ["genres"; "casts"; "indexes"]) then split_value (obj !! k)
  else if bool_decide (k = "platform_name") then
    match obj !! "platform", obj !! "platform_name" with
    | Some (JObj pf), None => assoc "name" pf
    | _, o => o
    end
  else if bool_decide (k = "year") then
    match obj !! "date" with
    | Some (JStr d) =>
        if bool_decide (4 ≤ PyStr.len d) && year_is_none obj
        then match PyStr.int (PyStr.prefix 4 d) with
             | Some y => Some (JInt y)
             | None => obj !! "year"
             end
        else obj !! "year"
    | _ => obj !! "year"
    end
  else if bool_decide (k = "ageLimit") then
    match obj !! "rtukRatingShort", obj !! "ageLimit" with
    | Some r, None => Some (JStr (PyStr.strip (py_str repr_container r)))
    | _, o => o
    end
  else obj !! k.

(** The keys [norm_item] may write. *)
Definition normalised_keys : list string :=
  [ "genres"; "casts"; "indexes"; "platform_name"; "year"; "ageLimit" ].

(** ** Discovery of the existing collections (lines 198-210) *)

(** [s.startswith(pre)] *)
Fixpoint startswith (s pre : string) : bool :=
  match pre, s with
  | EmptyString, _ => true
  | String a pre', String b s' => bool_decide (a = b) && startswith s' pre'
  | String _ _, EmptyString => false
  end.

(** What the loop reads of the reply to the listing request:
    [r.headers.get("content-type", "")], with [None] for a missing
    header, and [r.json()], with [None] when it raises. *)
Record ListReply : Type := {
  content_type : option string;
  listing : option Json;
}.

Inductive GetResult : Type :=
  | GetRaises (msg : string)
  | GetReturns (r : ListReply).

(** The name a listing entry gives, the empty string when it gives none. *)
Definition entry_name (c : Json) : string :=
  match c with
  | JObj fields =>
      match assoc "name" fields with
      | Some (JStr s) => s
      | _ => ""
      end
  | _ => ""
  end.

(** A listing entry as the collections route sends it: an object whose
    "name", when there, is a string. *)
Definition listing_entry (c : Json) : Prop :=
  ∃ fields,
    c = JObj fields
    ∧ (assoc "name" fields = None ∨ ∃ s, assoc "name" fields = Some (JStr s)).

Section Discovery.

Variable repr_container : Json → string.

(** Lines 205-208 on the elements of a list.  The flag is [false] when
    an element has no method [get]: the handler of line 209 then ends
    the discovery, and [existing] keeps what was added before. *)
Fixpoint add_names (cols : list Json) (existing : gset string)
  : gset string * bool :=
  match cols with
  | [] => (existing, true)
  | c :: rest =>
      match c with
      | JObj fields =>
          let name := default JNull (assoc "name" fields) in
          add_names rest
            (if truthy_json name
             then existing ∪ {[ py_str repr_container name ]}
             else existing)
      | _ => (existing, false)
      end
  end.

(** [for c in cols: ...] by the kind of [cols]: a list gives its
    elements, a dict its keys and a string its characters, which are
    strings without [get]; anything else cannot be iterated. *)
Definition collect (cols : Json) : gset string * bool :=
  match cols with
  | JArr elems => add_names elems ∅
  | JObj [] | JStr EmptyString => (∅, true)
  | JObj (_ :: _) | JStr (String _ _) => (∅, false)
  | JNull | JBool _ | JInt _ => (∅, false)
  end.

(** Lines 199-210: the set [existing], and whether the discovery ended
    without the warning. *)
Definition discover (g : GetResult) : gset string * bool :=
  match g with
  | GetRaises _ => (∅, false)
  | GetReturns r =>
      if startswith (default "" (content_type r)) "application/json" then
        match listing r with
        | None => (∅, false)
        | Some (JObj fields) =>
            match assoc "collections" fields with
            | Some cols => collect cols
            | None => (∅, true)
            end
        | Some _ => (∅, true)
        end
      else (∅, true)
  end.

End Discovery.

(** ** More concrete data for the examples *)

Definition bogus_row : Row := {[ "indexes" := CVal "bogus" ]}.

(** Two readings of one [dict] literal that list its keys in different
    orders. *)
Definition platform_text : string := "{'web': 1, 'iptv': 2}".

Definition literal_web_first (s : string) : option (list string) :=
  if bool_decide (s = platform_text) then Some ["web"; "iptv"] else None.

Definition literal_iptv_first (s : string) : option (list string) :=
  if bool_decide (s = platform_text) then Some ["iptv"; "web"] else None.

(** A stand-in for [repr] on lists and dicts. *)
Definition demo_repr (v : Json) : string := "[...]".

Definition demo_listing : list (string * Json) :=
  [ ("collections",
     JArr [ JObj [("name", JStr "movie"); ("total", JInt 12)];
            JObj [("name", JStr "")] ]);
    ("error", JStr "") ].

Definition broken_listing : list (string * Json) :=
  [ ("collections",
     JArr ([JObj [("name", JStr "movie")]]
           ++ JStr "serie" :: [JObj [("name", JStr "serie")]])) ].

(** * Properties *)

(** ** Strings and coercions *)

Lemma truthy_lower (s : string) : PyStr.truthy (PyStr.lower s) = PyStr.truthy s.
Proof. by destruct s. Qed.

Lemma truthy_true (s : string) : PyStr.truthy s = true ↔ s ≠ "".
Proof. destruct s; naive_solver. Qed.

(** The cleaned string is never the empty string: the emptiness test of
    the callers only ever fires on [None]. *)
Lemma to_str_truthy (value : Cell) (s : string) :
  to_str value = Some s → PyStr.truthy s = true.
Proof.
  destruct value as [| |repr]; simpl; try discriminate.
  destruct (_is_missing_str (PyStr.strip repr)) eqn:Hmiss; intros [= <-].
  destruct (PyStr.strip repr) eqn:Hs; [|done].
  by vm_compute in Hmiss.
Qed.

(** Trimming the kept parts is keeping the trimmed non-empty parts. *)
Lemma comprehension_filter {A} (f : A → string) (parts : list A) :
  f <$> List.filter (λ p, PyStr.truthy (f p)) parts
  = List.filter PyStr.truthy (f <$> parts).
Proof.
  induction parts as [|p parts IH]; [done|].
  rewrite fmap_cons. cbn [List.filter].
  destruct (PyStr.truthy (f p)); [rewrite fmap_cons|]; by rewrite IH.
Qed.

(** [to_list_from_csv] in one equation: absent exactly when the cleaned
    string is, and otherwise the trimmed non-empty parts. *)
Lemma to_list_from_csv_eq (value : Cell) :
  to_list_from_csv value
  = (λ s, List.filter PyStr.truthy (PyStr.strip <$> PyStr.split "," s))
      <$> to_str value.
Proof.
  unfold to_list_from_csv.
  destruct (to_str value) as [s|] eqn:Hs; simpl; [|done].
  rewrite (to_str_truthy _ _ Hs). simpl.
  by rewrite (comprehension_filter PyStr.strip).
Qed.

(** C4 (as the claim has it, refuted): a cell of commas and blanks is
    cleaned to a present string, all of its parts are dropped, and the
    function returns the empty list, not the absent value. *)
Lemma to_list_from_csv_returns_empty_list :
  to_str (CVal ", ,") = Some ", ,"
  ∧ to_list_from_csv (CVal ", ,") = Some []
  ∧ ¬ (∀ value, to_list_from_csv value ≠ Some []).
Proof.
  split_and!; [done..|].
  intros H. by apply (H (CVal ", ,")).
Qed.

(** C4 (amended): [to_list_from_csv] is absent exactly when the cleaned
    string is absent; otherwise it is the list of the comma-separated
    parts, each trimmed, the empty ones dropped, and that list is
    returned as it is, the empty list included.
    [to_list_from_csv("a, b ,c") = ["a","b","c"]],
    [to_list_from_csv("") = None] and [to_list_from_csv(", ,") = []]. *)
Theorem to_list_from_csv_spec :
  (∀ value,
     to_list_from_csv value
     = match to_str value with
       | None => None
       | Some s =>
           Some (List.filter PyStr.truthy (PyStr.strip <$> PyStr.split "," s))
       end)
  ∧ (∀ value, to_list_from_csv value = None ↔ to_str value = None)
  ∧ to_list_from_csv (CVal "a, b ,c") = Some ["a"; "b"; "c"]
  ∧ to_list_from_csv (CVal "") = None
  ∧ to_list_from_csv (CVal ", ,") = Some [].
Proof.
  split_and!; [| |done..].
  - intros value. rewrite to_list_from_csv_eq. by destruct (to_str value).
  - intros value. rewrite to_list_from_csv_eq. by destruct (to_str value).
Qed.

(** ** Index classifier: the working list *)

(** Case analysis on a type name [tl] along the tests of the synonym
    chain: in each positive case [tl] is a literal and both sides
    evaluate. *)
Ltac by_type_name tl :=
  repeat match goal with
    | |- context [bool_decide (tl = ?k)] =>
        destruct (decide (tl = k)) as [->|?];
        [by vm_compute | rewrite (bool_decide_eq_false_2 (tl = k)) by done]
    | |- context [bool_decide (tl ∈ ?ks)] =>
        let Hin := fresh "Hin" in
        destruct (decide (tl ∈ ks)) as [Hin|?];
        [ apply list_elem_of_In in Hin; simpl in Hin;
          destruct_or!; subst; try done; by vm_compute
        | rewrite (bool_decide_eq_false_2 (tl ∈ ks)) by done ]
    end.

(** The chain of tests of lines 83-94 is a lookup in the synonym table. *)
Lemma type_chain_table (tl : string) :
  (if bool_decide (tl = "movie") then ["cumovie"; "movie"]
   else if bool_decide (tl ∈ ["episode"; "ep"; "part"]) then ["cuepisode"; "episode"]
   else if bool_decide (tl ∈ ["season"]) then ["cuseason"; "season"]
   else if bool_decide (tl ∈ ["series"; "serie"; "show"]) then ["cuserie"; "serie"]
   else if bool_decide (tl ∈ ["livetv"; "live"; "tv"]) then ["livetv"]
   else if bool_decide (tl ∈ ["program"]) then ["program"]
   else [])
  = table_tags tl.
Proof.
  unfold table_tags, synonym_table. cbn [List.filter fst].
  by_type_name tl. done.
Qed.

Lemma type_indexes_table (row : Row) :
  type_indexes row
  = match to_str (row_get row "type") with
    | Some t => table_tags (PyStr.lower t)
    | None => []
    end.
Proof.
  unfold type_indexes.
  destruct (to_str (row_get row "type")) as [t|] eqn:Ht; simpl; [|done].
  rewrite (to_str_truthy _ _ Ht). apply type_chain_table.
Qed.

Lemma explicit_indexes_tokens (row : Row) :
  explicit_indexes row
  = match row_get row "indexes" with
    | CVal text => cell_tokens text
    | CNone | CNaN => []
    end.
Proof.
  unfold explicit_indexes, cell_tokens.
  destruct (row_get row "indexes") as [| |text]; [done..|].
  rewrite <- (comprehension_filter (λ p, PyStr.lower (PyStr.strip p))).
  f_equal. apply List.filter_ext. intros p. by rewrite truthy_lower.
Qed.

(** A type name the synonym table does not list derives no tag. *)
Lemma table_tags_unlisted (tl : string) :
  Forall (λ e, tl ∉ e.1) synonym_table → table_tags tl = [].
Proof.
  unfold table_tags. intros Hall.
  induction Hall as [|e tbl He _ IH]; [done|].
  cbn [List.filter]. by rewrite (bool_decide_eq_false_2 _ He).
Qed.

(** ** Index classifier: the deduplication loop *)

Lemma fold_dedup_step (l uniq : list string) (seen : gset string) :
  seen = list_to_set uniq →
  (fold_left dedup_step l (uniq, seen)).1 = uniq ++ first_seen uniq l.
Proof.
  revert uniq seen.
  induction l as [|ix l IH]; intros uniq seen Hseen; simpl.
  { by rewrite app_nil_r. }
  assert (bool_decide (ix ∈ seen) = bool_decide (ix ∈ uniq)) as ->.
  { apply bool_decide_ext. subst seen. apply elem_of_list_to_set. }
  destruct (PyStr.truthy ix && bool_decide (ix ∈ ALLOWED_INDEXES)
            && negb (bool_decide (ix ∈ uniq))).
  - rewrite (IH (uniq ++ [ix]) (seen ∪ {[ix]})).
    + by rewrite <- app_assoc.
    + subst seen. rewrite list_to_set_app_L. set_solver.
  - by apply IH.
Qed.

Lemma dedup_allowed_first_seen (l : list string) :
  dedup_allowed l = first_seen [] l.
Proof. unfold dedup_allowed. by rewrite (fold_dedup_step l [] ∅). Qed.

Lemma vocabulary_truthy (x : string) : x ∈ vocabulary → PyStr.truthy x = true.
Proof.
  intros Hin. apply list_elem_of_In in Hin. simpl in Hin.
  destruct_or!; by subst.
Qed.

Lemma elem_of_first_seen (x : string) (kept l : list string) :
  x ∈ first_seen kept l ↔ x ∈ l ∧ x ∈ vocabulary ∧ x ∉ kept.
Proof.
  revert kept. induction l as [|ix l IH]; intros kept; simpl.
  { rewrite elem_of_nil. naive_solver. }
  destruct (PyStr.truthy ix) eqn:Htr; simpl.
  2:{ rewrite IH, elem_of_cons. split; [naive_solver|].
      intros ([->|?] & Hv & ?); [|done].
      apply vocabulary_truthy in Hv. congruence. }
  unfold ALLOWED_INDEXES.
  case_bool_decide as Hv; simpl.
  2:{ rewrite elem_of_list_to_set in Hv.
      rewrite IH, elem_of_cons. naive_solver. }
  rewrite elem_of_list_to_set in Hv.
  case_bool_decide as Hk; simpl.
  - rewrite IH, elem_of_cons. naive_solver.
  - rewrite elem_of_cons, IH, elem_of_cons, elem_of_app, list_elem_of_singleton.
    destruct (decide (x = ix)); naive_solver.
Qed.

Lemma NoDup_first_seen (kept l : list string) : NoDup (first_seen kept l).
Proof.
  revert kept. induction l as [|ix l IH]; intros kept; simpl.
  { constructor. }
  destruct (_ && _); [|done].
  constructor; [|done].
  rewrite elem_of_first_seen, elem_of_app, list_elem_of_singleton. naive_solver.
Qed.

Lemma first_index_Some (x : string) (l : list string) :
  x ∈ l → is_Some (first_index x l).
Proof.
  induction l as [|y l IH]; simpl.
  { by rewrite elem_of_nil. }
  rewrite elem_of_cons. intros Hin.
  case_bool_decide; [by eexists|].
  destruct IH as [p ->]; [naive_solver|]. by eexists.
Qed.

(** Two tags the loop keeps stand in the order of their first
    occurrences in the list it reads. *)
Lemma first_seen_order (kept l : list string) (i j : nat) (a b : string) :
  first_seen kept l !! i = Some a →
  first_seen kept l !! j = Some b →
  i < j →
  ∃ p q, first_index a l = Some p ∧ first_index b l = Some q ∧ p < q.
Proof.
  revert kept i j.
  induction l as [|ix l IH]; intros kept i j Ha Hb Hij; simpl in *.
  { by rewrite lookup_nil in Ha. }
  destruct (PyStr.truthy ix && bool_decide (ix ∈ ALLOWED_INDEXES)
            && negb (bool_decide (ix ∈ kept))) eqn:Hkeep.
  - destruct j as [|j]; [lia|].
    assert (b ∈ first_seen (kept ++ [ix]) l) as Hb_in.
    { apply list_elem_of_lookup. by exists j. }
    apply elem_of_first_seen in Hb_in as (Hbl & _ & Hbk).
    assert (b ≠ ix) as Hbne by (intros ->; apply Hbk; set_solver).
    rewrite (bool_decide_eq_false_2 _ Hbne).
    destruct i as [|i].
    + injection Ha as <-. rewrite bool_decide_eq_true_2 by done.
      destruct (first_index_Some b l Hbl) as [q ->].
      exists 0, (S q). split_and!; [done..|lia].
    + assert (a ∈ first_seen (kept ++ [ix]) l) as Ha_in.
      { apply list_elem_of_lookup. by exists i. }
      apply elem_of_first_seen in Ha_in as (_ & _ & Hak).
      assert (a ≠ ix) as Hane by (intros ->; apply Hak; set_solver).
      rewrite (bool_decide_eq_false_2 _ Hane).
      destruct (IH (kept ++ [ix]) i j) as (p & q & -> & -> & ?); [done|done|lia|].
      exists (S p), (S q). split_and!; [done..|lia].
  - assert (∀ k c, first_seen kept l !! k = Some c → c ≠ ix) as Hne.
    { intros k c Hc ->.
      assert (ix ∈ first_seen kept l) as Hin.
      { apply list_elem_of_lookup. by exists k. }
      apply elem_of_first_seen in Hin as (_ & Hv & Hk).
      rewrite (vocabulary_truthy _ Hv) in Hkeep.
      unfold ALLOWED_INDEXES in Hkeep.
      rewrite bool_decide_eq_true_2 in Hkeep by (by apply elem_of_list_to_set).
      by rewrite (bool_decide_eq_false_2 _ Hk) in Hkeep. }
    rewrite (bool_decide_eq_false_2 _ (Hne _ _ Ha)).
    rewrite (bool_decide_eq_false_2 _ (Hne _ _ Hb)).
    destruct (IH kept i j) as (p & q & -> & -> & ?); [done..|].
    exists (S p), (S q). split_and!; [done..|lia].
Qed.

Lemma working_indexes_spec (row : Row) :
  working_indexes row = spec_working_list row.
Proof.
  unfold working_indexes, spec_working_list.
  rewrite explicit_indexes_tokens, type_indexes_table.
  by destruct (_ ++ _).
Qed.

Lemma type_indexes_unrecognized (row : Row) :
  unrecognized_type row → type_indexes row = [].
Proof.
  unfold unrecognized_type. rewrite type_indexes_table.
  destruct (to_str (row_get row "type")); [|done].
  apply table_tags_unlisted.
Qed.

Lemma explicit_indexes_no_cell (row : Row) :
  no_cell (row_get row "indexes") → explicit_indexes row = [].
Proof. unfold explicit_indexes. by intros [-> | ->]. Qed.

(** C1: the working list of the classifier is the explicit cell's
    comma-split, trimmed, lower-cased tokens, followed by the tags the
    synonym table gives for the type (matched without regard to case),
    and is [cuepisode] alone only when those two are empty together.
    With no explicit tag cell, type "Movie" gives exactly
    [cumovie, movie] in that order, and an unrecognized type gives
    exactly [cuepisode]. *)
Theorem map_indexes_from_row_classifies :
  (∀ row, working_indexes row = spec_working_list row)
  ∧ (∀ row, map_indexes_from_row row = dedup_allowed (spec_working_list row))
  ∧ (∀ row,
       no_cell (row_get row "indexes") →
       PyStr.lower <$> to_str (row_get row "type") = Some "movie" →
       map_indexes_from_row row = ["cumovie"; "movie"])
  ∧ (∀ row,
       no_cell (row_get row "indexes") →
       unrecognized_type row →
       map_indexes_from_row row = ["cuepisode"]).
Proof.
  split_and!.
  - apply working_indexes_spec.
  - intros row. unfold map_indexes_from_row. by rewrite working_indexes_spec.
  - intros row Hno Hty.
    unfold map_indexes_from_row, working_indexes.
    rewrite (explicit_indexes_no_cell _ Hno), type_indexes_table.
    destruct (to_str (row_get row "type")) as [t|]; [|done].
    injection Hty as ->. by vm_compute.
  - intros row Hno Hty.
    unfold map_indexes_from_row, working_indexes.
    rewrite (explicit_indexes_no_cell _ Hno), (type_indexes_unrecognized _ Hty).
    by vm_compute.
Qed.

(** C2: every tag the classifier returns is one of the tags of the
    vocabulary, which has ten members, no tag is returned twice, the tags stand in the order
    in which the working list first shows them, and a token of the
    working list is returned exactly when it is in the vocabulary; with
    the explicit cell "bogus, movie" and no tag from the type the result
    is exactly [movie]. *)
Theorem map_indexes_from_row_vocabulary :
  (∀ row, Forall (λ ix, ix ∈ vocabulary) (map_indexes_from_row row))
  ∧ size ALLOWED_INDEXES = 10
  ∧ (∀ ix, ix ∈ ALLOWED_INDEXES ↔ ix ∈ vocabulary)
  ∧ (∀ row, NoDup (map_indexes_from_row row))
  ∧ (∀ row i j a b,
       map_indexes_from_row row !! i = Some a →
       map_indexes_from_row row !! j = Some b →
       i < j →
       ∃ p q, first_index a (working_indexes row) = Some p
              ∧ first_index b (working_indexes row) = Some q
              ∧ p < q)
  ∧ (∀ row ix,
       ix ∈ map_indexes_from_row row
       ↔ ix ∈ working_indexes row ∧ ix ∈ vocabulary)
  ∧ (∀ row,
       row_get row "indexes" = CVal "bogus, movie" →
       unrecognized_type row →
       working_indexes row = ["bogus"; "movie"]
       ∧ map_indexes_from_row row = ["movie"]).
Proof.
  split_and!.
  - intros row. apply Forall_forall. intros ix.
    unfold map_indexes_from_row. rewrite dedup_allowed_first_seen.
    rewrite elem_of_first_seen. naive_solver.
  - by vm_compute.
  - intros ix. apply elem_of_list_to_set.
  - intros row. unfold map_indexes_from_row.
    rewrite dedup_allowed_first_seen. apply NoDup_first_seen.
  - intros row i j a b. unfold map_indexes_from_row.
    rewrite dedup_allowed_first_seen. apply first_seen_order.
  - intros row ix. unfold map_indexes_from_row.
    rewrite dedup_allowed_first_seen, elem_of_first_seen, elem_of_nil.
    naive_solver.
  - intros row Hcell Hty.
    unfold map_indexes_from_row, working_indexes, explicit_indexes.
    rewrite Hcell, (type_indexes_unrecognized _ Hty). by vm_compute.
Qed.

(** ** Field normaliser: the keys of an item *)

Lemma lookup_set_if_ne {A} (k k' : string) (mk : A → PyVal) (o : option A)
    (item : Item) :
  k ≠ k' → set_if k mk o item !! k' = item !! k'.
Proof. intros Hne. destruct o; simpl; [by rewrite lookup_insert_ne|done]. Qed.

Lemma lookup_set_if_eq {A} (k : string) (mk : A → PyVal) (o : option A)
    (item : Item) :
  set_if k mk o item !! k = match o with Some v => Some (mk v) | None => item !! k end.
Proof. destruct o; simpl; [by rewrite lookup_insert_eq|done]. Qed.

(** Reads a literal key of a built item through the assignments. *)
Ltac item_lookup :=
  unfold build_item_from_row; cbv zeta;
  repeat first
    [ rewrite lookup_insert_ne by done
    | rewrite lookup_set_if_ne by done
    | rewrite lookup_insert_eq
    | rewrite lookup_set_if_eq
    | rewrite lookup_empty ].

Section ItemKeys.

Variable lit : string → option (list string).
Variable row : Row.

Lemma item_name :
  build_item_from_row lit row !! "name"
  = Some (VStr (str_or (to_clean_str (row_get row "name"))
                       (to_clean_str (row_get row "engName")))).
Proof. by item_lookup. Qed.

Lemma item_description :
  build_item_from_row lit row !! "description"
  = Some (VStr (str_or (to_clean_str (row_get row "description"))
                       (to_clean_str (row_get row "engDescription")))).
Proof. by item_lookup. Qed.

Lemma item_poster :
  build_item_from_row lit row !! "poster"
  = Some (VStr (to_clean_str (row_get row "poster"))).
Proof. by item_lookup. Qed.

Lemma item_ageLimit :
  build_item_from_row lit row !! "ageLimit"
  = Some (VStr (to_clean_str (row_get row "rtukRatingShort"))).
Proof. by item_lookup. Qed.

Lemma item_type :
  build_item_from_row lit row !! "type"
  = Some (VStr (to_clean_str (row_get row "type"))).
Proof. by item_lookup. Qed.

Lemma item_channelGenre :
  build_item_from_row lit row !! "channelGenre"
  = Some (VStr (to_clean_str (row_get row "channelGenre"))).
Proof. by item_lookup. Qed.

Lemma item_platform_name :
  build_item_from_row lit row !! "platform_name"
  = Some (VStr (to_clean_str
                  (cell_of_ostr (parse_platform_name lit (row_get row "platform"))))).
Proof. by item_lookup. Qed.

Lemma item_semantic_text :
  build_item_from_row lit row !! "semantic_text"
  = Some (VStr (semantic_text_of
                  (str_or (to_clean_str (row_get row "name"))
                          (to_clean_str (row_get row "engName")))
                  (str_or (to_clean_str (row_get row "description"))
                          (to_clean_str (row_get row "engDescription")))
                  (to_clean_str (row_get row "type"))
                  (to_clean_str (row_get row "channelGenre"))
                  (to_list_from_csv (row_get row "genres"))
                  (to_list_from_csv (row_get row "casts")))).
Proof. by item_lookup. Qed.

Lemma item_contentId :
  build_item_from_row lit row !! "contentId"
  = VInt <$> to_int (row_get row "contentId").
Proof. item_lookup. by destruct (to_int _). Qed.

Lemma item_year :
  build_item_from_row lit row !! "year" = VInt <$> year_of_row row.
Proof. item_lookup. by destruct (year_of_row _). Qed.

Lemma item_genres :
  build_item_from_row lit row !! "genres"
  = match to_list_from_csv (row_get row "genres") with
    | Some (g :: gs) => Some (VList (g :: gs))
    | Some [] | None => None
    end.
Proof. item_lookup. by destruct (to_list_from_csv _) as [[|??]|]. Qed.

Lemma item_casts :
  build_item_from_row lit row !! "casts"
  = match to_list_from_csv (row_get row "casts") with
    | Some (c :: cs) => Some (VList (c :: cs))
    | Some [] | None => None
    end.
Proof. item_lookup. by destruct (to_list_from_csv _) as [[|??]|]. Qed.

Lemma item_indexes_key :
  build_item_from_row lit row !! "indexes"
  = match map_indexes_from_row row with
    | ix :: ixs => Some (VList (ix :: ixs))
    | [] => None
    end.
Proof. item_lookup. by destruct (map_indexes_from_row _). Qed.

(** A key of a built item is one of the thirteen field names. *)
Lemma item_keys (k : string) :
  is_Some (build_item_from_row lit row !! k) →
  k ∈ text_fields ++ optional_fields.
Proof.
  destruct (decide (k ∈ text_fields ++ optional_fields)) as [|Hk]; [done|].
  intros [v Hv]. exfalso. revert Hv.
  assert (∀ k', k' ∈ text_fields ++ optional_fields → k' ≠ k) as Hne.
  { by intros k' ? ->. }
  unfold build_item_from_row. cbv zeta.
  rewrite !lookup_insert_ne, !lookup_set_if_ne, !lookup_insert_ne,
    !lookup_set_if_ne, !lookup_insert_ne, !lookup_set_if_ne, !lookup_insert_ne,
    lookup_empty
    by (apply Hne; vm_compute; set_solver).
  done.
Qed.

(** [item.get("indexes", [])] of a built item is the classifier's list. *)
Lemma item_indexes_build :
  item_indexes (build_item_from_row lit row) = map_indexes_from_row row.
Proof.
  unfold item_indexes. rewrite item_indexes_key.
  by destruct (map_indexes_from_row row).
Qed.

End ItemKeys.

(** ** Collection router *)

(** Line 212 hands the router a trimmed override or none at all. *)
Lemma force_collection_of_trimmed (collection_arg : option string) (o : string) :
  force_collection_of collection_arg = Some o →
  ∃ a, collection_arg = Some a ∧ a ≠ "" ∧ o = PyStr.strip a.
Proof.
  unfold force_collection_of.
  destruct collection_arg as [[|c a]|]; simpl; try discriminate.
  intros [= <-]. by eexists.
Qed.

Lemma filter_all_true {A} (l : list A) : List.filter (λ _, true) l = l.
Proof. induction l as [|x l IH]; [done|]. simpl. by rewrite IH. Qed.

(** C3: with an override the targets are exactly that one collection,
    whatever the item's tags are; with none they are the item's tags
    that are in the set of known collections when that set is not
    empty, and all of the item's tags when it is empty.  With the known
    set [{movie}] and the tags [cumovie, movie] the targets are
    [movie]. *)
Theorem route_targets_spec :
  (∀ override existing item,
     override ≠ "" →
     route_targets (Some override) existing item = [override])
  ∧ (∀ force_collection existing item,
       no_override force_collection →
       existing ≠ ∅ →
       route_targets force_collection existing item
       = List.filter (λ ix, bool_decide (ix ∈ existing)) (item_indexes item))
  ∧ (∀ force_collection item,
       no_override force_collection →
       route_targets force_collection ∅ item = item_indexes item)
  ∧ (∀ item,
       item_indexes item = ["cumovie"; "movie"] →
       route_targets None {[ "movie" ]} item = ["movie"])
  ∧ (∀ lit row,
       item_indexes (build_item_from_row lit row) = map_indexes_from_row row).
Proof.
  split_and!.
  - intros [|c override] existing item Hne; [done|]. done.
  - intros fc existing item Hno Hex.
    assert (truthy_ostr fc = false) as Hfc by (by destruct Hno as [-> | ->]).
    unfold route_targets. rewrite Hfc.
    apply List.filter_ext. intros ix.
    by rewrite (bool_decide_eq_false_2 _ Hex).
  - intros fc item Hno.
    assert (truthy_ostr fc = false) as Hfc by (by destruct Hno as [-> | ->]).
    unfold route_targets. rewrite Hfc.
    rewrite <- (filter_all_true (item_indexes item)) at 2.
    apply List.filter_ext. intros ix.
    by rewrite bool_decide_eq_true_2.
  - intros item Hidx. unfold route_targets. simpl. rewrite Hidx. by vm_compute.
  - apply item_indexes_build.
Qed.

(** ** Field normaliser: the year *)

(** A decimal digit is neither white space, nor a sign, nor an
    underscore. *)
Lemma digit_plain (c : ascii) (d : Z) :
  PyStr.digit c = Some d →
  PyStr.int_space c = false
  ∧ bool_decide (c = "+"%char) = false
  ∧ bool_decide (c = "-"%char) = false
  ∧ bool_decide (c = "_"%char) = false
  ∧ (0 ≤ d ≤ 9)%Z.
Proof.
  destruct c as [[] [] [] [] [] [] [] []]; vm_compute; intros [= <-];
    split_and!; (done || discriminate).
Qed.

(** The digits of a text are among its characters. *)
Lemma count_digits_length (s : string) :
  (PyStr.count_digits s ≤ N.of_nat (String.length s))%N.
Proof.
  induction s as [|c s IH]; [done|].
  cbn [PyStr.count_digits String.length].
  destruct (PyStr.digit c); lia.
Qed.

(** A text no longer than the limit on digits is parsed as it stands. *)
Lemma int_body_short (r : string) :
  (N.of_nat (String.length r) ≤ PyStr.int_max_str_digits)%N →
  PyStr.int_body r = PyStr.int_digits 0 false r.
Proof.
  intros Hlen. unfold PyStr.int_body.
  pose proof (count_digits_length r).
  by rewrite (proj2 (N.leb_le _ _)) by lia.
Qed.

(** [int] of four decimal digits is the number they write. *)
Lemma int_four_digits (c1 c2 c3 c4 : ascii) (d1 d2 d3 d4 : Z) :
  PyStr.digit c1 = Some d1 → PyStr.digit c2 = Some d2 →
  PyStr.digit c3 = Some d3 → PyStr.digit c4 = Some d4 →
  PyStr.int (String c1 (String c2 (String c3 (String c4 ""))))
  = Some (1000 * d1 + 100 * d2 + 10 * d3 + d4)%Z.
Proof.
  intros H1 H2 H3 H4.
  destruct (digit_plain _ _ H1) as (S1 & P1 & M1 & U1 & _).
  destruct (digit_plain _ _ H2) as (S2 & _ & _ & U2 & _).
  destruct (digit_plain _ _ H3) as (S3 & _ & _ & U3 & _).
  destruct (digit_plain _ _ H4) as (S4 & _ & _ & U4 & _).
  unfold PyStr.int, PyStr.strip_with. simpl.
  rewrite S1. simpl. rewrite S4. simpl. rewrite P1, M1.
  rewrite int_body_short by (by vm_compute).
  simpl. rewrite U1, H1, U2, H2, U3, H3, U4, H4. f_equal. lia.
Qed.

(** C8: the item's year is decided by the cleaned date string: when it
    is present and at least four characters long, the year is the
    integer its first four characters parse to, and the key is left out
    when they do not parse; otherwise the key is left out.  The date
    "2020-05-01" gives the year 2020, the date "abcd" gives no year, and
    four decimal digits always parse to the number they write. *)
Theorem build_item_year :
  (∀ lit row,
     build_item_from_row lit row !! "year"
     = match to_str (row_get row "date") with
       | Some d =>
           if bool_decide (4 ≤ PyStr.len d)
           then VInt <$> PyStr.int (PyStr.prefix 4 d)
           else None
       | None => None
       end)
  ∧ (∀ lit row,
       row_get row "date" = CVal "2020-05-01" →
       build_item_from_row lit row !! "year" = Some (VInt 2020))
  ∧ (∀ lit row,
       row_get row "date" = CVal "abcd" →
       build_item_from_row lit row !! "year" = None)
  ∧ (∀ c1 c2 c3 c4 d1 d2 d3 d4,
       PyStr.digit c1 = Some d1 → PyStr.digit c2 = Some d2 →
       PyStr.digit c3 = Some d3 → PyStr.digit c4 = Some d4 →
       PyStr.int (String c1 (String c2 (String c3 (String c4 ""))))
       = Some (1000 * d1 + 100 * d2 + 10 * d3 + d4)%Z).
Proof.
  split_and!.
  - intros lit row. rewrite item_year. unfold year_of_row.
    destruct (to_str (row_get row "date")) as [d|] eqn:Hd; simpl; [|done].
    rewrite (to_str_truthy _ _ Hd). simpl. by case_bool_decide.
  - intros lit row Hd. rewrite item_year. unfold year_of_row. by rewrite Hd.
  - intros lit row Hd. rewrite item_year. unfold year_of_row. by rewrite Hd.
  - apply int_four_digits.
Qed.

(** ** Field normaliser: what an item contains *)

(** Rewrites the value of a literal key of a built item in [H]. *)
Ltac item_value H :=
  first
    [ rewrite item_name in H | rewrite item_description in H
    | rewrite item_poster in H | rewrite item_ageLimit in H
    | rewrite item_type in H | rewrite item_channelGenre in H
    | rewrite item_platform_name in H | rewrite item_semantic_text in H
    | rewrite item_contentId in H | rewrite item_year in H
    | rewrite item_genres in H | rewrite item_casts in H
    | rewrite item_indexes_key in H ].

Lemma item_values (lit : string → option (list string)) (row : Row)
    (k : string) (v : PyVal) :
  build_item_from_row lit row !! k = Some v →
  (k ∈ text_fields ∧ ∃ s, v = VStr s)
  ∨ (k ∈ ["contentId"; "year"] ∧ ∃ z, v = VInt z)
  ∨ (k ∈ ["genres"; "casts"; "indexes"] ∧ ∃ x l, v = VList (x :: l)).
Proof.
  intros Hv.
  assert (k ∈ text_fields ++ optional_fields) as Hk.
  { apply item_keys with lit row. by eexists. }
  apply list_elem_of_In in Hk. simpl in Hk.
  destruct_or!; try done; subst k; item_value Hv;
    try (apply fmap_Some in Hv as (? & _ & ->));
    repeat case_match; simplify_eq/=;
    first
      [ left; split; [vm_compute; set_solver | by eexists]
      | right; left; split; [set_solver | by eexists]
      | right; right; split; [set_solver | by do 2 eexists] ].
Qed.

Lemma item_text_fields (lit : string → option (list string)) (row : Row)
    (k : string) :
  k ∈ text_fields → ∃ s, build_item_from_row lit row !! k = Some (VStr s).
Proof.
  intros Hk. apply list_elem_of_In in Hk. simpl in Hk.
  destruct_or!; try done; subst k; eexists.
  - apply item_name.
  - apply item_description.
  - apply item_poster.
  - apply item_ageLimit.
  - apply item_type.
  - apply item_channelGenre.
  - apply item_platform_name.
  - apply item_semantic_text.
Qed.

Lemma to_clean_str_default (c : Cell) : to_clean_str c = default "" (to_str c).
Proof. unfold to_clean_str. by destruct (to_str c). Qed.

(** The text for retrieval is the parts that are there, joined. *)
Lemma semantic_text_of_join (name description content_type channel_genre : string)
    (genres casts : option (list string)) :
  semantic_text_of name description content_type channel_genre genres casts
  = PyStr.join " | "
      (List.filter PyStr.truthy [name; description; content_type; channel_genre]
       ++ match genres with
          | Some (g :: gs) => [PyStr.join ", " (g :: gs)]
          | Some [] | None => []
          end
       ++ match casts with
          | Some (c :: cs) => [PyStr.join ", " (c :: cs)]
          | Some [] | None => []
          end).
Proof.
  unfold semantic_text_of.
  generalize (List.filter PyStr.truthy
                [name; description; content_type; channel_genre]).
  intros parts.
  destruct genres as [[|g gs]|], casts as [[|c cs]|];
    cbn [truthy_olist default];
    destruct parts; simpl; rewrite ?app_nil_r, <- ?app_assoc; done.
Qed.

(** A platform cell that is missing or blank names no platform. *)
Lemma parse_platform_name_absent (lit : string → option (list string)) (c : Cell) :
  c = CNone ∨ c = CNaN ∨ (∃ repr, c = CVal repr ∧ PyStr.strip repr = "") →
  parse_platform_name lit c = None.
Proof.
  intros [-> | [-> | (repr & -> & Hrepr)]]; [done|done|].
  unfold parse_platform_name. by rewrite Hrepr.
Qed.

(** C9: in the item built from a row, [contentId], [genres], [casts],
    [year] and [indexes] are keys exactly when their values are present
    (an integer, or a list that is not empty); no key of the item holds
    a null value or an empty list; [name], [description], [poster],
    [ageLimit], [type], [channelGenre], [platform_name] and
    [semantic_text] always hold a string: for the first six the cleaned
    cell, the empty string when the cell is absent; for [platform_name]
    the cleaned platform text, the empty string when the platform cell
    is missing or blank; for [semantic_text] the parts that are there
    joined by " | ", the empty string when the name, description, type
    and channel genre are empty and there are no genres and no casts,
    as when all their cells are absent; and the item has no other key. *)
Theorem build_item_wire_shape (lit : string → option (list string)) (row : Row) :
  let item := build_item_from_row lit row in
  let name :=
    str_or (default "" (to_str (row_get row "name")))
           (default "" (to_str (row_get row "engName"))) in
  let description :=
    str_or (default "" (to_str (row_get row "description")))
           (default "" (to_str (row_get row "engDescription"))) in
  let content_type := default "" (to_str (row_get row "type")) in
  let channel_genre := default "" (to_str (row_get row "channelGenre")) in
  item !! "contentId" = VInt <$> to_int (row_get row "contentId")
  ∧ item !! "year" = VInt <$> year_of_row row
  ∧ item !! "genres"
    = match to_list_from_csv (row_get row "genres") with
      | Some (g :: gs) => Some (VList (g :: gs))
      | Some [] | None => None
      end
  ∧ item !! "casts"
    = match to_list_from_csv (row_get row "casts") with
      | Some (c :: cs) => Some (VList (c :: cs))
      | Some [] | None => None
      end
  ∧ item !! "indexes"
    = match map_indexes_from_row row with
      | ix :: ixs => Some (VList (ix :: ixs))
      | [] => None
      end
  ∧ (∀ k v, item !! k = Some v → v ≠ VNone ∧ v ≠ VList [])
  ∧ (∀ k, k ∈ text_fields → ∃ s, item !! k = Some (VStr s))
  ∧ item !! "poster" = Some (VStr (default "" (to_str (row_get row "poster"))))
  ∧ item !! "ageLimit"
    = Some (VStr (default "" (to_str (row_get row "rtukRatingShort"))))
  ∧ item !! "type" = Some (VStr content_type)
  ∧ item !! "channelGenre" = Some (VStr channel_genre)
  ∧ item !! "name" = Some (VStr name)
  ∧ item !! "description" = Some (VStr description)
  ∧ item !! "platform_name"
    = Some (VStr (default ""
                    (to_str (cell_of_ostr
                               (parse_platform_name lit (row_get row "platform"))))))
  ∧ (row_get row "platform" = CNone ∨ row_get row "platform" = CNaN
     ∨ (∃ repr, row_get row "platform" = CVal repr ∧ PyStr.strip repr = "") →
     item !! "platform_name" = Some (VStr ""))
  ∧ item !! "semantic_text"
    = Some (VStr (PyStr.join " | "
                    (List.filter PyStr.truthy
                       [name; description; content_type; channel_genre]
                     ++ match to_list_from_csv (row_get row "genres") with
                        | Some (g :: gs) => [PyStr.join ", " (g :: gs)]
                        | Some [] | None => []
                        end
                     ++ match to_list_from_csv (row_get row "casts") with
                        | Some (c :: cs) => [PyStr.join ", " (c :: cs)]
                        | Some [] | None => []
                        end)))
  ∧ (name = "" → description = "" → content_type = "" → channel_genre = "" →
     item !! "genres" = None → item !! "casts" = None →
     item !! "semantic_text" = Some (VStr ""))
  ∧ ((∀ k, k ∈ ["name"; "engName"; "description"; "engDescription"; "type";
                "channelGenre"; "genres"; "casts"] →
           to_str (row_get row k) = None) →
     item !! "semantic_text" = Some (VStr ""))
  ∧ (∀ k, is_Some (item !! k) → k ∈ text_fields ++ optional_fields).
Proof.
  intros item name description content_type channel_genre.
  assert (item !! "semantic_text"
          = Some (VStr (PyStr.join " | "
                    (List.filter PyStr.truthy
                       [name; description; content_type; channel_genre]
                     ++ match to_list_from_csv (row_get row "genres") with
                        | Some (g :: gs) => [PyStr.join ", " (g :: gs)]
                        | Some [] | None => []
                        end
                     ++ match to_list_from_csv (row_get row "casts") with
                        | Some (c :: cs) => [PyStr.join ", " (c :: cs)]
                        | Some [] | None => []
                        end)))) as Hsem.
  { subst item name description content_type channel_genre.
    by rewrite item_semantic_text, semantic_text_of_join, !to_clean_str_default. }
  subst item. split_and!.
  - apply item_contentId.
  - apply item_year.
  - apply item_genres.
  - apply item_casts.
  - apply item_indexes_key.
  - intros k v Hv. apply item_values in Hv.
    destruct Hv as [(_ & s & ->) | [(_ & z & ->) | (_ & x & l & ->)]]; done.
  - apply item_text_fields.
  - by rewrite item_poster, to_clean_str_default.
  - by rewrite item_ageLimit, to_clean_str_default.
  - by rewrite item_type, to_clean_str_default.
  - by rewrite item_channelGenre, to_clean_str_default.
  - by rewrite item_name, !to_clean_str_default.
  - by rewrite item_description, !to_clean_str_default.
  - by rewrite item_platform_name, to_clean_str_default.
  - intros Habsent.
    by rewrite item_platform_name, (parse_platform_name_absent lit _ Habsent).
  - exact Hsem.
  - intros Hn Hd Ht Hc Hg Hcs. rewrite Hsem, Hn, Hd, Ht, Hc.
    rewrite item_genres in Hg. rewrite item_casts in Hcs.
    destruct (to_list_from_csv (row_get row "genres")) as [[|??]|]; [|done|];
      destruct (to_list_from_csv (row_get row "casts")) as [[|??]|]; done.
  - intros Habsent. rewrite Hsem.
    subst name description content_type channel_genre.
    unfold to_list_from_csv.
    rewrite !Habsent by (apply (bool_decide_unpack _); vm_compute; exact I).
    done.
  - apply item_keys.
Qed.

(** ** The insertion report *)

Lemma insert_report_cases (n : nat) (result : BatchResult) :
  (insert_report n result).2 = [] ∧ (insert_report n result).1 = n
  ∨ (insert_report n result).2 ≠ [] ∧ (insert_report n result).1 = 0.
Proof.
  unfold insert_report.
  destruct (default false (has_errors result)); [right|left]; [|done].
  split; [|done].
  by destruct (batch_errors result) as [[|??]|].
Qed.

(** C5 (as the claim has it, refuted): no reply of the import route
    carries a non-empty error sequence together with a positive inserted
    count; a batch of two items of which [insert_many] reports one as
    failed is answered with the count 0. *)
Lemma import_reply_no_partial_count :
  insert_report 2 {| has_errors := Some true; batch_errors := Some ["0"] |}
  = (0, ["0"])
  ∧ ¬ (∃ n result,
         (insert_report n result).2 ≠ [] ∧ 0 < (insert_report n result).1)
  ∧ ¬ (∃ items run,
         errors (import_collection_data items run) ≠ []
         ∧ 0 < inserted (import_collection_data items run)).
Proof.
  split_and!; [done| |].
  - intros (n & result & Herr & Hins).
    destruct (insert_report_cases n result) as [[? _]|[_ ?]]; [done|lia].
  - intros (items & run & Herr & Hins). revert Herr Hins.
    destruct run as [msg|msg|result], items as [[|it its]|]; simpl; try lia.
    destruct (insert_report_cases (S (length its)) result) as [[He Hn]|[He Hn]];
      destruct (insert_report _ result) as [n errs]; simpl in *; subst;
      intros ??; [done|lia].
Qed.

(** C5 (amended): the reply of the import route carries an inserted
    count and a sequence of error messages that determine one another:
    when the sequence is not empty the count is 0, and when it is empty
    the status is 200 and the count is the number of items sent, which
    is positive. *)
Theorem import_reply_counts (items : option (list Json)) (run : HandlerRun) :
  let reply := import_collection_data items run in
  (errors reply ≠ [] → inserted reply = 0)
  ∧ (errors reply = [] →
       reply_status reply = 200%Z
       ∧ ∃ its, items = Some its ∧ inserted reply = length its
                ∧ 0 < inserted reply).
Proof.
  destruct run as [msg|msg|result], items as [[|it its]|]; simpl;
    try (split; [done|discriminate]).
  destruct (insert_report_cases (S (length its)) result) as [[He Hn]|[He Hn]];
    destruct (insert_report _ result) as [n errs]; simpl in *; subst.
  - split; [done|]. intros _. split; [done|].
    exists (it :: its). split_and!; [done|done|simpl; lia].
  - split; [done|]. done.
Qed.

(** ** Delivery of one item *)

Lemma json_get_object (fields : list (string * Json)) (key : string) :
  json_get (JObj fields) key = Ok (default JNull (assoc key fields)).
Proof. done. Qed.

(** [send_row] raises exactly on the failure the code tests for. *)
Lemma send_row_result_raises (resp : Response) :
  raises (send_row_result resp) = true ↔ delivery_fails resp.
Proof.
  unfold send_row_result, delivery_fails.
  destruct resp as [status txt [d|]]; simpl.
  2:{ destruct (status =? 200)%Z; simpl; naive_solver. }
  destruct (status =? 200)%Z eqn:Hst; simpl.
  2:{ apply Z.eqb_neq in Hst. naive_solver. }
  apply Z.eqb_eq in Hst. subst status.
  destruct d as [ |b|z|s|elems|fields]; simpl;
    try (split; [intros _; right; right; eexists; split; [done|];
                 left; by intros [? [=]]
                | done]).
  destruct (truthy_json (default JNull (assoc "error" fields))) eqn:He; simpl.
  { split; [intros _|done]. right; right. eexists; split; [done|].
    right; left. by eexists. }
  destruct (truthy_json (default JNull (assoc "errors" fields))) eqn:Hes; simpl.
  { split; [intros _|done]. right; right. eexists; split; [done|].
    right; right. by eexists. }
  split; [done|].
  intros [?|[[=]|(d & [= <-] & [Hno|[(f & [= <-] & Ht)|(f & [= <-] & Ht)]])]];
    [done| |congruence..].
  destruct Hno. by eexists.
Qed.

(** When it does not raise, [send_row] returns the parsed body. *)
Lemma send_row_result_returns (resp : Response) :
  ¬ delivery_fails resp →
  ∃ d, json resp = Some d ∧ send_row_result resp = Ok d.
Proof.
  intros Hok.
  assert (raises (send_row_result resp) = false) as Hr.
  { apply not_true_is_false. by rewrite send_row_result_raises. }
  assert (∃ d, json resp = Some d) as [d Hd].
  { destruct (json resp) eqn:Hj; [by eexists|]. destruct Hok. by right; left. }
  exists d. split; [done|].
  revert Hr. unfold send_row_result. rewrite Hd.
  repeat case_match; simpl; intros; simplify_eq; done.
Qed.

(** On a body of the route's shape the code's test is the test the
    specification words. *)
Lemma endpoint_shaped_fails (resp : Response) :
  (∀ d, json resp = Some d → endpoint_shaped d) →
  delivery_fails resp ↔ spec_delivery_fails resp.
Proof.
  unfold delivery_fails, spec_delivery_fails, reports_error_string,
    reports_errors_list, entry_truthy.
  destruct (json resp) as [d|]; intros Hshape; [|naive_solver].
  destruct (Hshape d eq_refl) as (fields & -> & Herr & Herrs).
  split.
  - intros [?|[?|(d & [= <-] & [Hno|[(f & [= <-] & Ht)|(f & [= <-] & Ht)]])]];
      [by left|done| | |].
    + destruct Hno. by eexists.
    + right; right; left. exists (JObj fields).
      destruct (assoc "error" fields) as [[ | | |s| | ]|] eqn:Ha;
        simpl in *; try done.
      exists s. rewrite Ha. split_and!; [done..|]. by destruct s.
    + right; right; right. exists (JObj fields).
      destruct (assoc "errors" fields) as [[ | | | |l| ]|] eqn:Ha;
        simpl in *; try done.
      exists l. rewrite Ha. split_and!; [done..|]. by destruct l.
  - intros [?|[?|[(d & s & [= <-] & Hg & Hs)|(d & l & [= <-] & Hg & Hl)]]];
      [by left|done| |].
    + right; right. eexists; split; [done|]. right; left.
      eexists; split; [done|].
      rewrite json_get_object in Hg. injection Hg as ->. by destruct s.
    + right; right. eexists; split; [done|]. right; right.
      eexists; split; [done|].
      rewrite json_get_object in Hg. injection Hg as ->. by destruct l.
Qed.

Lemma reply_json_shaped (r : ImportReply) : endpoint_shaped (reply_json r).
Proof. eexists. split; [done|]. by vm_compute. Qed.

(** The import route's own replies fail a delivery exactly when they
    are not 200 or carry an error. *)
Lemma reply_response_raises (r : ImportReply) (body_text : string) :
  raises (send_row_result (reply_response r body_text)) = true
  ↔ reply_status r ≠ 200%Z ∨ errors r ≠ [] ∨ error r ≠ "".
Proof.
  unfold send_row_result, reply_response, reply_json. simpl.
  destruct (reply_status r =? 200)%Z eqn:Hst; simpl.
  2:{ apply Z.eqb_neq in Hst. naive_solver. }
  apply Z.eqb_eq in Hst.
  destruct (error r) as [|c e]; simpl; [|naive_solver].
  destruct (errors r) as [|m ms]; simpl; naive_solver.
Qed.

(** C7 (as the claim has it, refuted): a 200 reply whose JSON body
    carries its errors as a non-empty object has no non-empty "error"
    string and no "errors" list, and [send_row] raises on it; so it does
    on a 200 reply whose JSON body is an array, which reports nothing. *)
Lemma send_row_raises_beyond_wording :
  (raises (send_row_result errors_as_object) = true
   ∧ ¬ spec_delivery_fails errors_as_object)
  ∧ (send_row_result array_body = Raise AttributeError
     ∧ ¬ spec_delivery_fails array_body)
  ∧ ¬ (∀ resp, raises (send_row_result resp) = true ↔ spec_delivery_fails resp).
Proof.
  assert (¬ spec_delivery_fails errors_as_object) as Hno.
  { intros [H|[H|[(d & s & Hj & Hg & Hs)|(d & l & Hj & Hg & Hl)]]];
      simpl in *; simplify_eq/=. }
  assert (¬ spec_delivery_fails array_body) as Hno'.
  { intros [H|[H|[(d & s & Hj & Hg & Hs)|(d & l & Hj & Hg & Hl)]]];
      simpl in *; simplify_eq/=. }
  split_and!; [done..|].
  intros Hall. apply Hno, Hall. done.
Qed.

(** C7 (amended): on a response received, [send_row] raises if and only
    if the status is not 200, or the body is not JSON, or the JSON body
    is not an object, or its "error" or "errors" entry has a true truth
    value (anything but null, false, 0 and the empty string, list or
    object); otherwise it returns the parsed body.  For a body whose
    "error" is a string and whose "errors" is a list, as the import
    route sends them, that is: a non-empty "error" string or a non-empty
    "errors" list. *)
Theorem send_row_result_spec :
  (∀ resp, raises (send_row_result resp) = true ↔ delivery_fails resp)
  ∧ (∀ resp, ¬ delivery_fails resp →
       ∃ d, json resp = Some d ∧ send_row_result resp = Ok d)
  ∧ (∀ resp,
       (∀ d, json resp = Some d → endpoint_shaped d) →
       (raises (send_row_result resp) = true ↔ spec_delivery_fails resp))
  ∧ (∀ r body_text,
       raises (send_row_result (reply_response r body_text)) = true
       ↔ reply_status r ≠ 200%Z ∨ errors r ≠ [] ∨ error r ≠ "").
Proof.
  split_and!.
  - apply send_row_result_raises.
  - apply send_row_result_returns.
  - intros resp Hshape.
    by rewrite send_row_result_raises, endpoint_shaped_fails.
  - apply reply_response_raises.
Qed.

(** ** The loop over the targets of a row *)

Section Delivery.

Context {World : Type}.
Variable post : World → string → list Item → World * PostResult.
Variables api_url user_id : string.

(** The loop posts to every target in turn and clears [row_ok] when an
    attempt raises; nothing else stops or undoes anything. *)
Lemma deliver_spec (idx : nat) (item : Item) (targets : list string)
    (w : World) (row_ok : bool) (out : list Line) :
  deliver post api_url user_id idx item targets w row_ok out
  = (world_after post api_url user_id item targets w,
     row_ok && bool_decide
                 (Forall attempt_ok (attempts post api_url user_id item targets w)),
     out ++ fail_lines idx (attempts post api_url user_id item targets w)).
Proof.
  revert w row_ok out.
  induction targets as [|coll rest IH]; intros w row_ok out.
  { simpl. unfold world_after. simpl.
    by rewrite andb_true_r, app_nil_r. }
  cbn [deliver attempts].
  unfold world_after. cbn [fold_left].
  destruct (send_row post api_url user_id w coll item) as [w' [d|e]] eqn:Hsend;
    rewrite IH; cbn [fst].
  - assert (bool_decide (Forall attempt_ok
              ((coll, Ok d) :: attempts post api_url user_id item rest w'))
            = bool_decide (Forall attempt_ok
                             (attempts post api_url user_id item rest w')))
      as ->; [|done].
    apply bool_decide_ext. rewrite Forall_cons. unfold attempt_ok at 1.
    naive_solver.
  - assert (bool_decide (Forall attempt_ok
              ((coll, Raise e) :: attempts post api_url user_id item rest w'))
            = false) as ->.
    { apply bool_decide_eq_false_2. rewrite Forall_cons.
      unfold attempt_ok at 1. naive_solver. }
    rewrite andb_false_r, <- app_assoc. done.
Qed.



Lemma fail_lines_are_fail_target (idx : nat) (atts : list (string * Result Json))
    (line : Line) :
  line ∈ fail_lines idx atts → ∃ coll e, line = FailTarget idx coll e.
Proof.
  unfold fail_lines. rewrite list_elem_of_omap.
  intros ([coll [d|e]] & _ & Hl); simplify_eq/=. by do 2 eexists.
Qed.

End Delivery.

(** ** One iteration of the loop over rows *)

Lemma build_item_size (lit : string → option (list string)) (row : Row) :
  size (build_item_from_row lit row) ≠ 0.
Proof. apply map_size_ne_0_lookup_2 with "name". rewrite item_name. by eexists. Qed.

Section Rows.

Context {World : Type}.
Variable post : World → string → list Item → World * PostResult.
Variable print_stdout : Line → option Exn.
Variable lit : string → option (list string).
Variables api_url user_id : string.
Variable force_collection : option string.
Variable existing : gset string.

(** What an iteration does once the row has targets. *)
Lemma process_row_targets (st : @RunState World) (idx : nat) (row : Row) :
  let item := build_item_from_row lit row in
  let targets := route_targets force_collection existing item in
  let atts := attempts post api_url user_id item targets (world st) in
  targets ≠ [] →
  process_row post print_stdout lit api_url user_id force_collection existing
    st idx row
  = if bool_decide (Forall attempt_ok atts)
    then print_line print_stdout
           {| success := S (success st); failed := failed st;
              world := world_after post api_url user_id item targets (world st);
              printed := printed st ++ fail_lines idx atts |}
           idx
           (OkRow idx (default (VStr "<no name>") (item !! "name")) targets)
           Succeeded true
    else ({| success := success st; failed := S (failed st);
             world := world_after post api_url user_id item targets (world st);
             printed := printed st ++ fail_lines idx atts |},
          Failed).
Proof.
  intros item targets atts Hne. unfold process_row.
  rewrite (bool_decide_eq_false_2 _ (build_item_size lit row)).
  fold item. fold targets.
  destruct targets as [|t ts] eqn:Ht; [done|].
  rewrite deliver_spec. fold atts. simpl.
  by destruct (bool_decide (Forall attempt_ok atts)).
Qed.



(** A line printed by [print_line] is the given one or the handler's. *)
Lemma print_line_printed (st : @RunState World) (idx : nat) (line : Line)
    (o : RowOutcome) (counted : bool) (l : Line) :
  l ∈ printed (print_line print_stdout st idx line o counted).1 →
  l ∈ printed st ∨ l = line ∨ ∃ e, l = FailRow idx e.
Proof.
  unfold print_line. destruct (print_stdout line) as [e|]; simpl;
    rewrite elem_of_app, list_elem_of_singleton; naive_solver.
Qed.

(** How [print_line] ends. *)
Lemma print_line_outcome (st : @RunState World) (idx : nat) (line : Line)
    (o : RowOutcome) (counted : bool) :
  (print_line print_stdout st idx line o counted).2 = o
  ∨ (print_line print_stdout st idx line o counted).2 = Raised counted.
Proof. unfold print_line. destruct (print_stdout line); [by right|by left]. Qed.

(** The iteration never ends in the empty-row branch. *)
Lemma process_row_not_skipped_empty (st : @RunState World) (idx : nat) (row : Row) :
  (process_row post print_stdout lit api_url user_id force_collection existing
     st idx row).2
  ≠ SkippedEmpty
  ∧ ∀ i, SkippedEmptyRow i
         ∈ printed (process_row post print_stdout lit api_url user_id
                      force_collection existing st idx row).1 →
         SkippedEmptyRow i ∈ printed st.
Proof.
  destruct (decide (route_targets force_collection existing
                      (build_item_from_row lit row) = [])) as [Hnil|Hne].
  - unfold process_row.
    rewrite (bool_decide_eq_false_2 _ (build_item_size lit row)), Hnil.
    split.
    + by destruct (print_line_outcome st idx
                     (SkipNoTargets idx (build_item_from_row lit row !! "indexes"))
                     SkippedNoTargets false) as [-> | ->].
    + intros i Hin. apply print_line_printed in Hin. naive_solver.
  - rewrite (process_row_targets st idx row Hne).
    case_bool_decide.
    + split.
      * match goal with
        | |- (print_line _ ?s ?i ?l ?o ?c).2 ≠ _ =>
            by destruct (print_line_outcome s i l o c) as [-> | ->]
        end.
      * intros i Hin. apply print_line_printed in Hin. simpl in Hin.
        rewrite elem_of_app in Hin.
        destruct Hin as [[Hin|Hin]|[Hin|[e Hin]]]; try done.
        by apply fail_lines_are_fail_target in Hin as (? & ? & ?).
    + simpl. split; [done|]. intros i. rewrite elem_of_app.
      intros [Hin|Hin]; [done|].
      by apply fail_lines_are_fail_target in Hin as (? & ? & ?).
Qed.

Lemma run_rows_not_skipped_empty (rows : list Row) (st : @RunState World)
    (idx : nat) (i : nat) :
  SkippedEmptyRow i
    ∈ printed (run_rows post print_stdout lit api_url user_id force_collection
                 existing st idx rows) →
  SkippedEmptyRow i ∈ printed st.
Proof.
  revert st idx. induction rows as [|row rows IH]; intros st idx; [done|].
  simpl. intros Hin. apply IH in Hin.
  by apply process_row_not_skipped_empty in Hin.
Qed.

End Rows.


(** C10: the item built from any row holds the keys [name],
    [description], [poster], [ageLimit], [type], [channelGenre],
    [platform_name] and [semantic_text]; it is therefore never the empty
    mapping, its truth test never fails, and no iteration of the
    orchestrator, nor any run over a list of rows, takes the empty-row
    branch or prints its line. *)
Theorem build_item_never_empty :
  (∀ lit row k, k ∈ text_fields → is_Some (build_item_from_row lit row !! k))
  ∧ (∀ lit row, build_item_from_row lit row ≠ ∅)
  ∧ (∀ lit row, bool_decide (size (build_item_from_row lit row) = 0) = false)
  ∧ (∀ World (post : World → string → list Item → World * PostResult)
       print_stdout lit api_url user_id force_collection existing st idx row,
       (process_row post print_stdout lit api_url user_id force_collection
          existing st idx row).2 ≠ SkippedEmpty)
  ∧ (∀ World (post : World → string → list Item → World * PostResult)
       print_stdout lit api_url user_id force_collection existing st idx rows,
       no_empty_row_line (printed st) →
       no_empty_row_line
         (printed (run_rows post print_stdout lit api_url user_id
                     force_collection existing st idx rows))).
Proof.
  split_and!.
  - intros lit row k Hk.
    destruct (item_text_fields lit row k Hk) as [s ->]. by eexists.
  - intros lit row. apply map_size_non_empty_iff, build_item_size.
  - intros lit row. apply bool_decide_eq_false_2, build_item_size.
  - intros. apply process_row_not_skipped_empty.
  - intros World post print_stdout lit api_url user_id fc existing st idx rows
      Hst i Hin.
    apply (Hst i). by apply run_rows_not_skipped_empty in Hin.
Qed.

(** * The properties at concrete inputs *)

Lemma map_indexes_from_row_classifies_witness :
  map_indexes_from_row movie_row = ["cumovie"; "movie"]
  ∧ map_indexes_from_row documentary_row = ["cuepisode"].
Proof.
  destruct map_indexes_from_row_classifies as (_ & _ & Hmovie & Hother).
  split.
  - apply Hmovie; [left|]; vm_compute; reflexivity.
  - apply Hother; [left; vm_compute; reflexivity|].
    unfold unrecognized_type.
    assert (to_str (row_get documentary_row "type") = Some "documentary") as ->
      by (vm_compute; reflexivity).
    apply (bool_decide_unpack _). vm_compute. exact I.
Defined.

Lemma map_indexes_from_row_vocabulary_witness :
  (working_indexes tagged_row = ["bogus"; "movie"]
   ∧ map_indexes_from_row tagged_row = ["movie"])
  ∧ ∃ p q, first_index "cumovie" (working_indexes movie_row) = Some p
           ∧ first_index "movie" (working_indexes movie_row) = Some q
           ∧ p < q.
Proof.
  destruct map_indexes_from_row_vocabulary as (_ & _ & _ & _ & Horder & _ & Hex).
  split.
  - apply Hex; [vm_compute; reflexivity | vm_compute; exact I].
  - apply (Horder movie_row 0 1); [vm_compute; reflexivity..|lia].
Defined.

Lemma route_targets_spec_witness :
  route_targets (Some "archive") {[ "movie" ]}
    (build_item_from_row no_dict_literal movie_row) = ["archive"]
  ∧ route_targets None {[ "movie" ]}
      (build_item_from_row no_dict_literal movie_row) = ["movie"]
  ∧ route_targets None ∅
      (build_item_from_row no_dict_literal movie_row) = ["cumovie"; "movie"].
Proof.
  destruct route_targets_spec as (Hforce & Hknown & Hall & Hex & Hidx).
  split_and!.
  - apply Hforce. discriminate.
  - apply Hex. vm_compute. reflexivity.
  - rewrite Hall by (left; reflexivity). rewrite Hidx. vm_compute. reflexivity.
Defined.

Lemma import_reply_counts_witness :
  inserted (import_collection_data (Some [JNull; JNull])
              (Inserts {| has_errors := Some true; batch_errors := Some ["0"] |}))
  = 0
  ∧ reply_status (import_collection_data (Some [JNull; JNull])
                    (Inserts {| has_errors := Some false; batch_errors := None |}))
    = 200%Z.
Proof.
  split.
  - apply (import_reply_counts (Some [JNull; JNull])
             (Inserts {| has_errors := Some true; batch_errors := Some ["0"] |})).
    simpl. discriminate.
  - apply (import_reply_counts (Some [JNull; JNull])
             (Inserts {| has_errors := Some false; batch_errors := None |})).
    simpl. reflexivity.
Defined.


Lemma send_row_result_spec_witness :
  (∃ d, send_row_result
          (reply_response {| reply_status := 200; inserted := 1;
                             errors := []; error := "" |} "") = Ok d)
  ∧ raises (send_row_result
              (reply_response {| reply_status := 200; inserted := 0;
                                 errors := ["boom"]; error := "" |} ""))
    = true.
Proof.
  destruct send_row_result_spec as (Hiff & Hret & Hshaped & _).
  split.
  - destruct (Hret (reply_response {| reply_status := 200; inserted := 1;
                                      errors := []; error := "" |} ""))
      as (d & _ & Hd).
    + rewrite <- Hiff. vm_compute. discriminate.
    + by exists d.
  - apply Hshaped.
    + intros d [= <-]. apply reply_json_shaped.
    + right; right; right. exists (reply_json {| reply_status := 200; inserted := 0;
                                                  errors := ["boom"]; error := "" |}).
      exists [JStr "boom"]. split_and!; [reflexivity|reflexivity|discriminate].
Defined.

Lemma build_item_year_witness :
  build_item_from_row no_dict_literal scenario_row !! "year" = Some (VInt 2019)
  ∧ build_item_from_row no_dict_literal {[ "date" := CVal "2020-05-01" ]} !! "year"
    = Some (VInt 2020)
  ∧ build_item_from_row no_dict_literal {[ "date" := CVal "abcd" ]} !! "year" = None
  ∧ PyStr.int "1984" = Some 1984%Z.
Proof.
  destruct build_item_year as (Hrule & H2020 & Habcd & Hdigits).
  split_and!.
  - rewrite Hrule. vm_compute. reflexivity.
  - apply H2020. vm_compute. reflexivity.
  - apply Habcd. vm_compute. reflexivity.
  - apply (Hdigits "1" "9" "8" "4" 1 9 8 4)%char%Z; vm_compute; reflexivity.
Defined.

Lemma build_item_wire_shape_witness :
  let item := build_item_from_row no_dict_literal scenario_row in
  item !! "contentId" = None
  ∧ item !! "casts" = None
  ∧ item !! "year" = Some (VInt 2019)
  ∧ item !! "genres" = Some (VList ["Action"; "Drama"])
  ∧ item !! "indexes" = Some (VList ["cumovie"; "movie"])
  ∧ (VInt 2019 ≠ VNone ∧ VInt 2019 ≠ VList [])
  ∧ (∃ s, item !! "description" = Some (VStr s))
  ∧ item !! "poster" = Some (VStr "")
  ∧ item !! "name" = Some (VStr "X")
  ∧ item !! "platform_name" = Some (VStr "")
  ∧ item !! "semantic_text" = Some (VStr "X | movie | Action, Drama")
  ∧ build_item_from_row no_dict_literal ∅ !! "semantic_text" = Some (VStr "")
  ∧ "genres" ∈ text_fields ++ optional_fields.
Proof.
  intros item. subst item.
  destruct (build_item_wire_shape no_dict_literal scenario_row)
    as (Hid & Hyear & Hgenres & Hcasts & Hindexes & Hval & Htext & Hposter
        & _ & _ & _ & Hname & _ & _ & Hplatform & Hsem & _ & _ & Hkeys).
  destruct (build_item_wire_shape no_dict_literal ∅)
    as (_ & _ & _ & _ & _ & _ & _ & _ & _ & _ & _ & _ & _ & _ & _ & _ & _
        & Habsent & _).
  split_and!.
  - rewrite Hid. vm_compute. reflexivity.
  - rewrite Hcasts. vm_compute. reflexivity.
  - rewrite Hyear. vm_compute. reflexivity.
  - rewrite Hgenres. vm_compute. reflexivity.
  - rewrite Hindexes. vm_compute. reflexivity.
  - apply (Hval "year" (VInt 2019)). vm_compute. reflexivity.
  - apply (Hval "year" (VInt 2019)). vm_compute. reflexivity.
  - apply Htext. apply (bool_decide_unpack _). vm_compute. exact I.
  - rewrite Hposter. vm_compute. reflexivity.
  - rewrite Hname. vm_compute. reflexivity.
  - apply Hplatform. left. vm_compute. reflexivity.
  - rewrite Hsem. vm_compute. reflexivity.
  - apply Habsent. intros k Hk. vm_compute. reflexivity.
  - apply Hkeys. vm_compute. eexists. reflexivity.
Defined.

Lemma build_item_never_empty_witness :
  is_Some (build_item_from_row no_dict_literal ∅ !! "name")
  ∧ no_empty_row_line
      (printed (run_rows demo_post demo_print no_dict_literal "http://host/" "u1"
                  None ∅ demo_start 0 [∅; movie_row])).
Proof.
  destruct build_item_never_empty as (Hkeys & _ & _ & _ & Hrun).
  split.
  - apply Hkeys. apply (bool_decide_unpack _). vm_compute. exact I.
  - apply Hrun. intros i. apply not_elem_of_nil.
Defined.

(** * Further properties *)

(** ** Trimming *)

Lemma rstrip_with_cons (p : ascii → bool) (c : ascii) (s : string) :
  PyStr.rstrip_with p (String c s)
  = match PyStr.rstrip_with p s with
    | EmptyString => if p c then EmptyString else String c EmptyString
    | String c' r => String c (String c' r)
    end.
Proof. simpl. by destruct (PyStr.rstrip_with p s). Qed.

Lemma lstrip_with_head (p : ascii → bool) (s : string) :
  head_kept p (PyStr.lstrip_with p s).
Proof.
  induction s as [|c s IH]; simpl; [done|].
  by destruct (p c) eqn:Hc.
Qed.

Lemma lstrip_with_id (p : ascii → bool) (s : string) :
  head_kept p s → PyStr.lstrip_with p s = s.
Proof. destruct s as [|c s]; simpl; [done|]. by intros ->. Qed.

Lemma rstrip_with_head (p : ascii → bool) (s : string) :
  head_kept p s → head_kept p (PyStr.rstrip_with p s).
Proof.
  destruct s as [|c s]; [done|]. rewrite rstrip_with_cons. simpl.
  intros Hc. destruct (PyStr.rstrip_with p s); [by rewrite Hc|done].
Qed.

Lemma rstrip_with_idem (p : ascii → bool) (s : string) :
  PyStr.rstrip_with p (PyStr.rstrip_with p s) = PyStr.rstrip_with p s.
Proof.
  induction s as [|c s IH]; [done|].
  rewrite rstrip_with_cons.
  destruct (PyStr.rstrip_with p s) as [|c' r] eqn:Hr.
  - destruct (p c) eqn:Hc; [done|]. rewrite rstrip_with_cons. simpl.
    by rewrite Hc.
  - rewrite rstrip_with_cons, IH. done.
Qed.

Lemma strip_with_idem (p : ascii → bool) (s : string) :
  PyStr.strip_with p (PyStr.strip_with p s) = PyStr.strip_with p s.
Proof.
  unfold PyStr.strip_with.
  rewrite (lstrip_with_id p (PyStr.rstrip_with p _)).
  - apply rstrip_with_idem.
  - apply rstrip_with_head, lstrip_with_head.
Qed.

Lemma strip_idem (s : string) : PyStr.strip (PyStr.strip s) = PyStr.strip s.
Proof. apply strip_with_idem. Qed.

(** A character that [p] rejects survives trimming with [p]. *)
Lemma has_char_lstrip (p : ascii → bool) (c : ascii) (s : string) :
  p c = false → has_char c s = true → has_char c (PyStr.lstrip_with p s) = true.
Proof.
  intros Hc. induction s as [|c' s IH]; simpl; [done|].
  destruct (p c') eqn:Hc'; [|done].
  case_bool_decide as Heq; [congruence|]. simpl. apply IH.
Qed.

Lemma has_char_rstrip (p : ascii → bool) (c : ascii) (s : string) :
  p c = false → has_char c s = true → has_char c (PyStr.rstrip_with p s) = true.
Proof.
  intros Hc. induction s as [|c' s IH]; [done|].
  rewrite rstrip_with_cons. cbn [has_char].
  case_bool_decide as Heq; simpl.
  - subst c'. intros _. rewrite Hc.
    destruct (PyStr.rstrip_with p s); simpl; by rewrite bool_decide_eq_true_2.
  - intros Hs. specialize (IH Hs).
    destruct (PyStr.rstrip_with p s) as [|c'' r]; [done|].
    cbn [has_char] in *. rewrite IH. by rewrite orb_true_r.
Qed.

(** Trimming adds no character. *)
Lemma has_char_lstrip_inv (p : ascii → bool) (c : ascii) (s : string) :
  has_char c (PyStr.lstrip_with p s) = true → has_char c s = true.
Proof.
  induction s as [|c' s IH]; simpl; [done|].
  destruct (p c'); [|done]. intros H. rewrite (IH H). by rewrite orb_true_r.
Qed.

Lemma has_char_rstrip_inv (p : ascii → bool) (c : ascii) (s : string) :
  has_char c (PyStr.rstrip_with p s) = true → has_char c s = true.
Proof.
  induction s as [|c' s IH]; [done|].
  rewrite rstrip_with_cons. cbn [has_char].
  destruct (PyStr.rstrip_with p s) as [|c'' r].
  - destruct (p c'); simpl; [done|]. rewrite orb_false_r. by intros ->.
  - cbn [has_char]. intros H. apply orb_true_iff in H as [H|H].
    + by rewrite H.
    + rewrite (IH H). by rewrite orb_true_r.
Qed.

Lemma has_char_strip_inv (c : ascii) (s : string) :
  has_char c (PyStr.strip s) = true → has_char c s = true.
Proof.
  unfold PyStr.strip, PyStr.strip_with.
  intros H. by apply has_char_rstrip_inv, has_char_lstrip_inv in H.
Qed.

(** A string without a character that [p] accepts is left as it is. *)
Lemma strip_with_clean (p : ascii → bool) (s : string) :
  (∀ c, has_char c s = true → p c = false) → PyStr.strip_with p s = s.
Proof.
  intros Hclean. unfold PyStr.strip_with.
  rewrite lstrip_with_id.
  2:{ destruct s as [|c s]; [done|]. simpl. apply Hclean. simpl.
      by rewrite bool_decide_eq_true_2. }
  induction s as [|c s IH]; [done|].
  rewrite rstrip_with_cons, IH.
  - destruct s; [|done]. rewrite Hclean; [done|].
    simpl. by rewrite bool_decide_eq_true_2.
  - intros c' Hc'. apply Hclean. simpl. rewrite Hc'. by rewrite orb_true_r.
Qed.

(** ** Value coercion *)

Lemma to_str_CVal (repr : string) :
  to_str (CVal repr)
  = if bool_decide (PyStr.lower (PyStr.strip repr) ∈ sentinels)
    then None
    else Some (PyStr.strip repr).
Proof. simpl. unfold _is_missing_str. by rewrite strip_idem. Qed.

Lemma to_str_fixed (value : Cell) (s : string) :
  to_str value = Some s → to_str (CVal s) = Some s.
Proof.
  destruct value as [| |repr]; try discriminate.
  rewrite to_str_CVal. case_bool_decide as Hm; intros [= <-].
  rewrite to_str_CVal, strip_idem. by rewrite bool_decide_eq_false_2.
Qed.

(** X1: [to_str] gives the trimmed text of a cell unless that text,
    lower-cased, is one of "", "none", "nan" and "null", in which case,
    as for [None] and NaN, it gives nothing; a text it gives is trimmed,
    is not empty, is no sentinel in any letter case, and is given back
    unchanged when cleaned again. *)
Theorem to_str_cleaned :
  (∀ repr,
     to_str (CVal repr)
     = if bool_decide (PyStr.lower (PyStr.strip repr) ∈ sentinels)
       then None
       else Some (PyStr.strip repr))
  ∧ (∀ value s,
       to_str value = Some s →
       PyStr.strip s = s
       ∧ s ≠ ""
       ∧ (PyStr.lower s ∉ sentinels)
       ∧ to_str (CVal s) = Some s).
Proof.
  split; [apply to_str_CVal|].
  intros value s Hs. split_and!.
  - destruct value as [| |repr]; try discriminate.
    rewrite to_str_CVal in Hs. case_bool_decide; simplify_eq.
    apply strip_idem.
  - apply truthy_true. by apply to_str_truthy with value.
  - destruct value as [| |repr]; try discriminate.
    rewrite to_str_CVal in Hs. case_bool_decide; by simplify_eq.
  - by apply to_str_fixed with value.
Qed.

(** X2: cleaning a cell to a string and cleaning the result again gives
    the same string. *)
Theorem to_clean_str_fixed_point (value : Cell) :
  to_clean_str (CVal (to_clean_str value)) = to_clean_str value.
Proof.
  unfold to_clean_str at 2 3.
  destruct (to_str value) as [s|] eqn:Hs; [|done].
  unfold to_clean_str. by rewrite (to_str_fixed _ _ Hs).
Qed.

(** ** Integers *)

Lemma int_space_isspace (c : ascii) :
  PyStr.isspace c = false → PyStr.int_space c = false.
Proof. destruct c as [[] [] [] [] [] [] [] []]; by vm_compute. Qed.

Lemma digit_not_space (c : ascii) :
  is_Some (PyStr.digit c) → PyStr.isspace c = false.
Proof.
  destruct c as [[] [] [] [] [] [] [] []]; vm_compute; try done;
    by intros [? [=]].
Qed.

Lemma all_digits_char (s : string) (c : ascii) :
  all_digits s = true → has_char c s = true → is_Some (PyStr.digit c).
Proof.
  induction s as [|c' s IH]; simpl; [done|].
  intros [Hd Hs]%andb_true_iff [Hc|Hc]%orb_true_iff.
  - apply bool_decide_eq_true in Hc as <-. by apply bool_decide_eq_true in Hd.
  - by apply IH.
Qed.

(** On digits, the digit loop of [int] computes the decimal value. *)
Lemma int_digits_decimal (s : string) (acc : Z) (after_digit : bool) :
  all_digits s = true →
  s ≠ "" ∨ after_digit = true →
  PyStr.int_digits acc after_digit s = Some (decimal_value acc s).
Proof.
  revert acc after_digit.
  induction s as [|c s IH]; intros acc b Hall Hne; simpl.
  { destruct Hne as [?| ->]; done. }
  simpl in Hall. apply andb_true_iff in Hall as [Hd Hs].
  apply bool_decide_eq_true in Hd as [d Hd].
  destruct (digit_plain _ _ Hd) as (_ & _ & _ & -> & _).
  rewrite Hd. simpl. apply IH; [done|by right].
Qed.

(** A character that is neither a digit nor an underscore stops the
    digit loop. *)
Lemma int_digits_foreign (c : ascii) (s : string) (acc : Z) (after_digit : bool) :
  has_char c s = true →
  PyStr.digit c = None →
  c ≠ "_"%char →
  PyStr.int_digits acc after_digit s = None.
Proof.
  intros Hin Hd Hu. revert acc after_digit.
  induction s as [|c' s IH]; intros acc b; simpl in *; [done|].
  destruct (decide (c' = c)) as [->|Hne].
  - by rewrite (bool_decide_eq_false_2 _ Hu), Hd.
  - rewrite (bool_decide_eq_false_2 _ Hne) in Hin. simpl in Hin.
    case_bool_decide.
    + destruct b; [by apply IH|done].
    + destruct (PyStr.digit c'); [by apply IH|done].
Qed.

(** Every character of a text of digits counts towards the limit. *)
Lemma count_digits_all (s : string) :
  all_digits s = true → PyStr.count_digits s = N.of_nat (String.length s).
Proof.
  induction s as [|c s IH]; [done|].
  cbn [all_digits PyStr.count_digits String.length].
  intros [Hd Hs]%andb_true_iff.
  apply bool_decide_eq_true in Hd as [d ->]. rewrite (IH Hs). lia.
Qed.

(** On digits, the text after the sign is read as the number it writes
    when it is within the limit, and refused beyond it. *)
Lemma int_body_decimal (s : string) :
  all_digits s = true →
  s ≠ "" →
  PyStr.int_body s
  = if (N.of_nat (String.length s) <=? PyStr.int_max_str_digits)%N
    then Some (decimal_value 0 s) else None.
Proof.
  intros Hall Hne. unfold PyStr.int_body. rewrite (count_digits_all s Hall).
  destruct (_ <=? _)%N; [|done]. by apply int_digits_decimal; [|left].
Qed.

Lemma int_body_foreign (c : ascii) (s : string) :
  has_char c s = true →
  PyStr.digit c = None →
  c ≠ "_"%char →
  PyStr.int_body s = None.
Proof.
  intros Hin Hd Hu. unfold PyStr.int_body.
  destruct (_ <=? _)%N; [|done]. by apply int_digits_foreign with c.
Qed.

(** [int] of a non-empty text of digits, with or without a sign. *)
Lemma to_int_digits (s : string) :
  s ≠ "" →
  all_digits s = true →
  to_int (CVal s) = PyStr.int_body s
  ∧ to_int (CVal (String "+" s)) = PyStr.int_body s
  ∧ to_int (CVal (String "-" s)) = Z.opp <$> PyStr.int_body s.
Proof.
  intros Hne Hall.
  assert (∀ c, has_char c s = true → PyStr.isspace c = false) as Hclean.
  { intros c Hc. by apply digit_not_space, all_digits_char with s. }
  assert (∀ sign : ascii,
            PyStr.isspace sign = false →
            ∀ c, has_char c (String sign s) = true → PyStr.isspace c = false)
    as Hsigned.
  { intros sign Hsign c. simpl. intros [Hc|Hc]%orb_true_iff; [|by apply Hclean].
    by apply bool_decide_eq_true in Hc as <-. }
  assert (∃ c0 r, s = String c0 r ∧ is_Some (PyStr.digit c0)) as (c0 & r & Hs & [d0 Hd0]).
  { destruct s as [|c0 r]; [done|]. exists c0, r. split; [done|].
    simpl in Hall. apply andb_true_iff in Hall as [Hd _].
    by apply bool_decide_eq_true in Hd. }
  destruct (digit_plain _ _ Hd0) as (_ & Hplus & Hminus & _ & _).
  unfold to_int, PyStr.strip, PyStr.int. split_and!.
  - rewrite (strip_with_clean PyStr.isspace s) by done.
    rewrite (strip_with_clean PyStr.int_space s)
      by (intros c Hc; by apply int_space_isspace, Hclean).
    by rewrite Hs, Hplus, Hminus.
  - rewrite (strip_with_clean PyStr.isspace (String "+" s)) by by apply Hsigned.
    by rewrite (strip_with_clean PyStr.int_space (String "+" s))
      by (intros c Hc; by apply int_space_isspace, (Hsigned "+"%char)).
  - rewrite (strip_with_clean PyStr.isspace (String "-" s)) by by apply Hsigned.
    by rewrite (strip_with_clean PyStr.int_space (String "-" s))
      by (intros c Hc; by apply int_space_isspace, (Hsigned "-"%char)).
Qed.

(** X3: on a non-empty text of decimal digits, with or without a sign
    in front, [to_int] gives the number the text writes when the text
    has at most 4300 digits, and nothing when it has more: [int] then
    raises [ValueError], which [to_int] catches. *)
Theorem to_int_decimal (s : string) :
  s ≠ "" →
  all_digits s = true →
  ((N.of_nat (String.length s) ≤ 4300)%N →
     to_int (CVal s) = Some (decimal_value 0 s)
     ∧ to_int (CVal (String "+" s)) = Some (decimal_value 0 s)
     ∧ to_int (CVal (String "-" s)) = Some (- decimal_value 0 s)%Z)
  ∧ ((4300 < N.of_nat (String.length s))%N →
       to_int (CVal s) = None
       ∧ to_int (CVal (String "+" s)) = None
       ∧ to_int (CVal (String "-" s)) = None).
Proof.
  intros Hne Hall.
  destruct (to_int_digits s Hne Hall) as (-> & -> & ->).
  rewrite (int_body_decimal s Hall Hne).
  change PyStr.int_max_str_digits with 4300%N.
  split; intros Hlen.
  - by rewrite (proj2 (N.leb_le _ _)) by done.
  - by rewrite (proj2 (N.leb_gt _ _)) by done.
Qed.

(** X4: [to_int] gives nothing for a text that holds a character other
    than a digit, a sign, an underscore and white space: the rendering
    of a float such as "123.0" is no integer. *)
Theorem to_int_rejects (repr : string) (c : ascii) :
  has_char c repr = true →
  PyStr.digit c = None →
  c ≠ "+"%char → c ≠ "-"%char → c ≠ "_"%char →
  PyStr.isspace c = false →
  to_int (CVal repr) = None.
Proof.
  intros Hin Hd Hplus Hminus Hu Hsp.
  unfold to_int, PyStr.int.
  set (t := PyStr.strip_with PyStr.int_space (PyStr.strip repr)).
  assert (has_char c t = true) as Ht.
  { subst t. unfold PyStr.strip, PyStr.strip_with.
    apply has_char_rstrip, has_char_lstrip, has_char_rstrip, has_char_lstrip;
      auto using int_space_isspace. }
  destruct t as [|c0 r]; [done|].
  destruct (decide (c0 = "+"%char)) as [->|H1].
  { rewrite bool_decide_eq_true_2 by done.
    simpl in Ht. rewrite (bool_decide_eq_false_2 ("+"%char = c)) in Ht by done.
    by apply int_body_foreign with c. }
  rewrite (bool_decide_eq_false_2 _ H1).
  destruct (decide (c0 = "-"%char)) as [->|H2].
  { rewrite bool_decide_eq_true_2 by done.
    simpl in Ht. rewrite (bool_decide_eq_false_2 ("-"%char = c)) in Ht by done.
    by rewrite (int_body_foreign c). }
  rewrite (bool_decide_eq_false_2 _ H2).
  by apply int_body_foreign with c.
Qed.

(** ** Lists from comma-separated text *)

Lemma split_no_sep (sep : ascii) (s : string) :
  Forall (λ part, has_char sep part = false) (PyStr.split sep s).
Proof.
  induction s as [|c s IH]; simpl.
  { by constructor. }
  case_bool_decide as Hc.
  - by constructor.
  - destruct (PyStr.split sep s) as [|part parts].
    + constructor; [|done]. simpl. by rewrite bool_decide_eq_false_2.
    + inversion IH; subst. constructor; [|done].
      simpl. by rewrite bool_decide_eq_false_2.
Qed.

(** X5: every element of a list [to_list_from_csv] returns is a
    non-empty, trimmed text without a comma. *)
Theorem to_list_from_csv_parts (value : Cell) (parts : list string) :
  to_list_from_csv value = Some parts →
  Forall (λ part, part ≠ "" ∧ PyStr.strip part = part ∧ has_char "," part = false)
         parts.
Proof.
  rewrite to_list_from_csv_eq.
  destruct (to_str value) as [s|]; [|done]. intros [= <-].
  apply Forall_forall. intros part Hin.
  apply list_elem_of_In, List.filter_In in Hin as [Hin Htruthy].
  apply list_elem_of_In, list_elem_of_fmap in Hin as (raw & -> & Hraw).
  split_and!.
  - by apply truthy_true.
  - apply strip_idem.
  - destruct (has_char "," (PyStr.strip raw)) eqn:Hc; [|done].
    apply has_char_strip_inv in Hc.
    pose proof (split_no_sep "," s) as Hall.
    rewrite Forall_forall in Hall. by rewrite (Hall raw Hraw) in Hc.
Qed.

(** ** Index classifier: further properties *)

Lemma first_seen_app (kept a b : list string) :
  first_seen kept (a ++ b)
  = first_seen kept a ++ first_seen (kept ++ first_seen kept a) b.
Proof.
  revert kept. induction a as [|ix a IH]; intros kept; simpl.
  { by rewrite app_nil_r. }
  destruct (PyStr.truthy ix && bool_decide (ix ∈ ALLOWED_INDEXES)
            && negb (bool_decide (ix ∈ kept))).
  - rewrite IH. simpl. by rewrite <- app_assoc.
  - apply IH.
Qed.

(** The loop leaves a list of distinct vocabulary tags as it is. *)
Lemma first_seen_id (kept l : list string) :
  NoDup l →
  Forall (λ ix, ix ∈ vocabulary) l →
  Forall (λ ix, ix ∉ kept) l →
  first_seen kept l = l.
Proof.
  revert kept. induction l as [|ix l IH]; intros kept Hnd Hv Hk; [done|].
  apply NoDup_cons in Hnd as [Hix Hnd].
  apply Forall_cons in Hv as [Hv Hvl]. apply Forall_cons in Hk as [Hk Hkl].
  simpl. rewrite (vocabulary_truthy _ Hv). unfold ALLOWED_INDEXES.
  rewrite bool_decide_eq_true_2 by (by apply elem_of_list_to_set).
  rewrite (bool_decide_eq_false_2 _ Hk). simpl. f_equal.
  apply IH; [done..|].
  rewrite Forall_forall in Hkl |- *. intros x Hx.
  rewrite elem_of_app, list_elem_of_singleton. intros [?| ->]; [|done].
  by apply (Hkl x).
Qed.

Lemma first_seen_vocabulary (kept l : list string) :
  Forall (λ ix, ix ∈ vocabulary) (first_seen kept l).
Proof. apply Forall_forall. intros ix. rewrite elem_of_first_seen. naive_solver. Qed.

Lemma table_tags_vocabulary (tl ix : string) :
  ix ∈ table_tags tl → ix ∈ vocabulary.
Proof.
  unfold table_tags. intros Hin.
  assert (ix ∈ mjoin (snd <$> synonym_table)) as Hall.
  { revert Hin. generalize synonym_table. intros tbl.
    induction tbl as [|e tbl IH]; [done|]. cbn [List.filter].
    rewrite fmap_cons. cbn [mjoin list_join]. rewrite elem_of_app.
    destruct (bool_decide (tl ∈ e.1)).
    - rewrite fmap_cons. cbn [mjoin list_join]. rewrite elem_of_app.
      naive_solver.
    - naive_solver. }
  apply list_elem_of_In in Hall. vm_compute in Hall.
  destruct_or!; try done; subst ix; apply (bool_decide_unpack _); by vm_compute.
Qed.

Lemma type_indexes_vocabulary (row : Row) (ix : string) :
  ix ∈ type_indexes row → ix ∈ vocabulary.
Proof.
  rewrite type_indexes_table.
  destruct (to_str (row_get row "type")); [|by rewrite elem_of_nil].
  apply table_tags_vocabulary.
Qed.

Lemma working_indexes_nonempty (row : Row) : working_indexes row ≠ [].
Proof. unfold working_indexes. by destruct (_ ++ _). Qed.

Lemma elem_of_working_indexes (row : Row) (ix : string) :
  ix ∈ explicit_indexes row ++ type_indexes row → ix ∈ working_indexes row.
Proof. unfold working_indexes. destruct (_ ++ _); [by rewrite elem_of_nil|done]. Qed.

Lemma elem_of_map_indexes (row : Row) (ix : string) :
  ix ∈ map_indexes_from_row row ↔ ix ∈ working_indexes row ∧ ix ∈ vocabulary.
Proof.
  unfold map_indexes_from_row.
  rewrite dedup_allowed_first_seen, elem_of_first_seen, elem_of_nil. naive_solver.
Qed.

Lemma NoDup_map_indexes (row : Row) : NoDup (map_indexes_from_row row).
Proof.
  unfold map_indexes_from_row. rewrite dedup_allowed_first_seen.
  apply NoDup_first_seen.
Qed.

Lemma NoDup_vocabulary : NoDup vocabulary.
Proof. apply (bool_decide_unpack _). by vm_compute. Qed.

Lemma length_map_indexes (row : Row) : length (map_indexes_from_row row) ≤ 10.
Proof.
  change 10 with (length vocabulary).
  apply submseteq_length, NoDup_submseteq; [apply NoDup_map_indexes|].
  intros ix Hix. by apply elem_of_map_indexes in Hix as [_ ?].
Qed.

(** X6: the classifier returns at most ten tags; it returns none exactly
    when no token of its working list is in the vocabulary.  The
    default [cuepisode] only replaces an empty working list: a row whose
    explicit cell holds tokens, none of them in the vocabulary, and
    whose type is not recognised gets no tag at all. *)
Theorem map_indexes_from_row_empty :
  (∀ row, length (map_indexes_from_row row) ≤ 10)
  ∧ (∀ row,
       map_indexes_from_row row = []
       ↔ Forall (λ ix, ix ∉ vocabulary) (working_indexes row))
  ∧ (∀ row,
       explicit_indexes row ≠ [] →
       Forall (λ ix, ix ∉ vocabulary) (explicit_indexes row) →
       unrecognized_type row →
       map_indexes_from_row row = []).
Proof.
  assert (∀ row,
            map_indexes_from_row row = []
            ↔ Forall (λ ix, ix ∉ vocabulary) (working_indexes row)) as Hempty.
  { intros row. rewrite Forall_forall. split.
    - intros Hnil ix Hw Hv.
      assert (ix ∈ map_indexes_from_row row) as Hin
        by (by apply elem_of_map_indexes).
      rewrite Hnil in Hin. by apply elem_of_nil in Hin.
    - intros Hall.
      destruct (map_indexes_from_row row) as [|ix l] eqn:Hres; [done|].
      assert (ix ∈ map_indexes_from_row row) as Hin by (rewrite Hres; left).
      apply elem_of_map_indexes in Hin as [Hw Hv]. by destruct (Hall ix Hw). }
  split_and!; [apply length_map_indexes|apply Hempty|].
  intros row Hne Hall Hty. apply Hempty.
  unfold working_indexes. rewrite (type_indexes_unrecognized _ Hty), app_nil_r.
  by destruct (explicit_indexes row).
Qed.

(** X7: the tags of a recognised type are always among the tags the
    classifier returns, whatever the explicit cell holds; and the
    vocabulary tags of the explicit cell, without their repetitions,
    come first in the result. *)
Theorem map_indexes_from_row_sources :
  (∀ row ix, ix ∈ type_indexes row → ix ∈ map_indexes_from_row row)
  ∧ (∀ row ix,
       ix ∈ explicit_indexes row → ix ∈ vocabulary →
       ix ∈ map_indexes_from_row row)
  ∧ (∀ row,
       dedup_allowed (explicit_indexes row) `prefix_of` map_indexes_from_row row).
Proof.
  split_and!.
  - intros row ix Hix. apply elem_of_map_indexes. split.
    + apply elem_of_working_indexes, elem_of_app. by right.
    + by apply type_indexes_vocabulary with row.
  - intros row ix Hix Hv. apply elem_of_map_indexes. split; [|done].
    apply elem_of_working_indexes, elem_of_app. by left.
  - intros row. unfold map_indexes_from_row, working_indexes.
    rewrite !dedup_allowed_first_seen.
    destruct (explicit_indexes row ++ type_indexes row) as [|ix l] eqn:Happ.
    + apply app_eq_nil in Happ as [-> _]. apply prefix_nil.
    + rewrite <- Happ, first_seen_app. by eexists.
Qed.

(** X8: the deduplication loop changes nothing in a list of distinct
    vocabulary tags; run on its own result it gives that result again. *)
Theorem dedup_allowed_stable :
  (∀ l, NoDup l → Forall (λ ix, ix ∈ vocabulary) l → dedup_allowed l = l)
  ∧ (∀ l, dedup_allowed (dedup_allowed l) = dedup_allowed l).
Proof.
  assert (∀ l, NoDup l → Forall (λ ix, ix ∈ vocabulary) l → dedup_allowed l = l)
    as Hid.
  { intros l Hnd Hv. rewrite dedup_allowed_first_seen.
    apply first_seen_id; [done..|].
    apply Forall_forall. intros ix _. apply not_elem_of_nil. }
  split; [done|].
  intros l. apply Hid.
  - rewrite dedup_allowed_first_seen. apply NoDup_first_seen.
  - rewrite dedup_allowed_first_seen. apply first_seen_vocabulary.
Qed.

(** ** Field normaliser: the year is a small number *)

Lemma length_lstrip_with (p : ascii → bool) (s : string) :
  String.length (PyStr.lstrip_with p s) ≤ String.length s.
Proof. induction s as [|c s IH]; simpl; [done|]. destruct (p c); simpl; lia. Qed.

Lemma length_rstrip_with (p : ascii → bool) (s : string) :
  String.length (PyStr.rstrip_with p s) ≤ String.length s.
Proof.
  induction s as [|c s IH]; [done|]. rewrite rstrip_with_cons.
  destruct (PyStr.rstrip_with p s); [destruct (p c)|]; simpl in *; lia.
Qed.

Lemma length_strip_with (p : ascii → bool) (s : string) :
  String.length (PyStr.strip_with p s) ≤ String.length s.
Proof.
  unfold PyStr.strip_with.
  pose proof (length_rstrip_with p (PyStr.lstrip_with p s)).
  pose proof (length_lstrip_with p s). lia.
Qed.

Lemma length_prefix (n : nat) (s : string) : String.length (PyStr.prefix n s) ≤ n.
Proof.
  revert s. induction n as [|n IH]; intros [|c s]; simpl; try lia.
  specialize (IH s). lia.
Qed.

Lemma digit_range (c : ascii) (d : Z) : PyStr.digit c = Some d → (0 ≤ d ≤ 9)%Z.
Proof. intros Hd. by destruct (digit_plain _ _ Hd) as (_ & _ & _ & _ & ?). Qed.

(** The digit loop on [s] appends at most [length s] digits to [acc]. *)
Lemma int_digits_bound (s : string) (acc : Z) (after_digit : bool) (v : Z) :
  (0 ≤ acc)%Z →
  PyStr.int_digits acc after_digit s = Some v →
  (acc ≤ v < (acc + 1) * 10 ^ Z.of_nat (String.length s))%Z.
Proof.
  revert acc after_digit.
  induction s as [|c s IH]; intros acc b Hacc; simpl String.length.
  { simpl. destruct b; intros [= <-]. lia. }
  rewrite Nat2Z.inj_succ, Z.pow_succ_r by lia.
  assert (0 < 10 ^ Z.of_nat (String.length s))%Z as Hpow
    by (apply Z.pow_pos_nonneg; lia).
  simpl. case_bool_decide.
  - destruct b; [|done]. intros Hv. apply IH in Hv; [|done]. nia.
  - destruct (PyStr.digit c) as [d|] eqn:Hd; [|done].
    apply digit_range in Hd. intros Hv. apply IH in Hv; [|lia]. nia.
Qed.

(** What is read of the text after the sign is what the digit loop reads. *)
Lemma int_body_digits (r : string) (v : Z) :
  PyStr.int_body r = Some v → PyStr.int_digits 0 false r = Some v.
Proof. unfold PyStr.int_body. by destruct (_ <=? _)%N. Qed.

Lemma int_bound (s : string) (v : Z) :
  PyStr.int s = Some v →
  (- 10 ^ Z.of_nat (String.length s - 1) < v < 10 ^ Z.of_nat (String.length s))%Z.
Proof.
  unfold PyStr.int.
  pose proof (length_strip_with PyStr.int_space s) as Hlen.
  destruct (PyStr.strip_with PyStr.int_space s) as [|c r] eqn:Ht; [done|].
  simpl in Hlen.
  assert (∀ n m : nat, n ≤ m → (10 ^ Z.of_nat n ≤ 10 ^ Z.of_nat m)%Z) as Hmono.
  { intros n m Hnm. apply Z.pow_le_mono_r; lia. }
  pose proof (Hmono (String.length r) (String.length s - 1) ltac:(lia)) as H1.
  pose proof (Hmono (String.length s - 1) (String.length s) ltac:(lia)) as H2.
  assert (0 < 10 ^ Z.of_nat (String.length s - 1))%Z as Hpos
    by (apply Z.pow_pos_nonneg; lia).
  case_bool_decide; [|case_bool_decide].
  - intros Hv%int_body_digits. apply int_digits_bound in Hv; lia.
  - destruct (PyStr.int_body r) as [v'|] eqn:Hv'; [|done].
    apply int_body_digits in Hv'.
    simpl. intros [= <-]. apply int_digits_bound in Hv'; lia.
  - intros Hv%int_body_digits. apply int_digits_bound in Hv; [|lia].
    pose proof (Hmono (String.length (String c r)) (String.length s)
                  ltac:(simpl; lia)). lia.
Qed.

(** X9: a year the normaliser derives lies between -999 and 9999: it is
    read from four characters. *)
Theorem build_item_year_range (lit : string → option (list string)) (row : Row)
    (y : Z) :
  build_item_from_row lit row !! "year" = Some (VInt y) →
  (-999 ≤ y ≤ 9999)%Z.
Proof.
  rewrite item_year. unfold year_of_row.
  destruct (_ && _); [|done].
  destruct (PyStr.int _) as [v|] eqn:Hv; [|done]. intros [= <-].
  apply int_bound in Hv.
  pose proof (length_prefix 4 (default "" (to_str (row_get row "date")))) as Hlen.
  assert (∀ n m : nat, n ≤ m → (10 ^ Z.of_nat n ≤ 10 ^ Z.of_nat m)%Z) as Hmono.
  { intros n m Hnm. apply Z.pow_le_mono_r; lia. }
  pose proof (Hmono _ 4 Hlen) as H4.
  pose proof (Hmono (String.length
                       (PyStr.prefix 4 (default "" (to_str (row_get row "date")))) - 1)
                    3 ltac:(lia)) as H3.
  change (10 ^ Z.of_nat 4)%Z with 10000%Z in H4.
  change (10 ^ Z.of_nat 3)%Z with 1000%Z in H3.
  lia.
Qed.

(** ** Field normaliser: the searchable text *)

Lemma join_empty (sep : string) (parts : list string) :
  sep ≠ "" → PyStr.join sep parts = "" → parts = [] ∨ parts = [""].
Proof.
  intros Hsep. destruct parts as [|p [|q rest]]; simpl; [by left|by right; subst|].
  destruct p; [|done]. destruct sep; done.
Qed.

Lemma csv_join_truthy (value : Cell) :
  truthy_olist (to_list_from_csv value) = true →
  PyStr.join ", " (default [] (to_list_from_csv value)) ≠ "".
Proof.
  destruct (to_list_from_csv value) as [[|g gs]|] eqn:Hl; try done.
  intros _ Hjoin. change (PyStr.join ", " (g :: gs) = "") in Hjoin.
  assert (g ≠ "") as Hg.
  { rewrite to_list_from_csv_eq in Hl.
    destruct (to_str value) as [s|]; [|done]. injection Hl as Hl.
    assert (g ∈ List.filter PyStr.truthy (PyStr.strip <$> PyStr.split "," s))
      as Hin by (rewrite Hl; left).
    apply list_elem_of_In, List.filter_In in Hin as [_ Hin]. by apply truthy_true. }
  apply join_empty in Hjoin as [?|?]; [done|naive_solver|done].
Qed.

(** X10: the searchable text of an item is empty exactly when its name,
    description, type and channel genre are empty and it has neither
    genres nor casts. *)
Theorem build_item_semantic_text_empty (lit : string → option (list string))
    (row : Row) :
  let item := build_item_from_row lit row in
  item !! "semantic_text" = Some (VStr "")
  ↔ item !! "name" = Some (VStr "")
    ∧ item !! "description" = Some (VStr "")
    ∧ item !! "type" = Some (VStr "")
    ∧ item !! "channelGenre" = Some (VStr "")
    ∧ item !! "genres" = None
    ∧ item !! "casts" = None.
Proof.
  intros item. subst item.
  rewrite item_semantic_text, item_name, item_description, item_type,
    item_channelGenre, item_genres, item_casts.
  set (name := str_or _ _). set (description := str_or _ _).
  set (ty := to_clean_str (row_get row "type")).
  set (cg := to_clean_str (row_get row "channelGenre")).
  pose proof (csv_join_truthy (row_get row "genres")) as Hg.
  pose proof (csv_join_truthy (row_get row "casts")) as Hc.
  unfold semantic_text_of.
  destruct (truthy_olist (to_list_from_csv (row_get row "genres"))) eqn:Htg;
    destruct (truthy_olist (to_list_from_csv (row_get row "casts"))) eqn:Htc.
  all: set (parts := List.filter PyStr.truthy [name; description; ty; cg]).
  all: assert (Forall (λ p, p ≠ "") parts) as Hparts
         by (apply Forall_forall; intros p Hp;
             apply list_elem_of_In, List.filter_In in Hp as [_ Hp];
             by apply truthy_true).
  all: assert (parts = [] ↔ name = "" ∧ description = "" ∧ ty = "" ∧ cg = "")
         as Hnil
         by (subst parts; destruct name, description, ty, cg; simpl; naive_solver).
  all: assert (∀ l : list string,
                 Forall (λ p, p ≠ "") l →
                 match l with [] => "" | _ :: _ => PyStr.join " | " l end = ""
                 → l = []) as Hjoin
         by (intros [|p l] Hl; [done|]; intros Hj;
             apply join_empty in Hj as [?|Hj]; [done| |done];
             injection Hj as -> ->; by apply Forall_cons in Hl as [? _]).
  - split.
    + intros [= Hj]. apply Hjoin in Hj.
      * by apply app_eq_nil in Hj as [_ ?].
      * rewrite !Forall_app. split_and!; [done|by constructor; auto..].
    + intros (_&_&_&_& Hgen &_).
      by destruct (to_list_from_csv (row_get row "genres")) as [[|??]|].
  - split.
    + intros [= Hj]. apply Hjoin in Hj.
      * by apply app_eq_nil in Hj as [_ ?].
      * rewrite !Forall_app. split_and!; [done|by constructor; auto].
    + intros (_&_&_&_& Hgen &_).
      by destruct (to_list_from_csv (row_get row "genres")) as [[|??]|].
  - split.
    + intros [= Hj]. apply Hjoin in Hj.
      * by apply app_eq_nil in Hj as [_ ?].
      * rewrite !Forall_app. split_and!; [done|by constructor; auto].
    + intros (_&_&_&_&_& Hcast).
      by destruct (to_list_from_csv (row_get row "casts")) as [[|??]|].
  - split.
    + intros [= Hj]. apply Hjoin in Hj; [|done].
      apply Hnil in Hj as (-> & -> & -> & ->).
      split_and!; try done.
      * by destruct (to_list_from_csv (row_get row "genres")) as [[|??]|].
      * by destruct (to_list_from_csv (row_get row "casts")) as [[|??]|].
    + intros ([= Hn] & [= Hd] & [= Ht] & [= Hcg] & _).
      assert (parts = []) as -> by (apply Hnil; done). done.
Qed.

(** ** Field normaliser: the number of keys *)

(** X11: an item has the eight text keys and one more key for each
    optional field that is present: between eight and thirteen keys. *)
Theorem build_item_size_range (lit : string → option (list string)) (row : Row) :
  let item := build_item_from_row lit row in
  size item
  = 8 + length (List.filter (λ k, bool_decide (is_Some (item !! k))) optional_fields)
  ∧ 8 ≤ size item ≤ 13.
Proof.
  intros item.
  assert (size item
          = 8 + length (List.filter (λ k, bool_decide (is_Some (item !! k)))
                                    optional_fields)) as Hsize.
  { subst item. unfold build_item_from_row. cbv zeta.
    generalize (VStr (semantic_text_of
      (str_or (to_clean_str (row_get row "name"))
              (to_clean_str (row_get row "engName")))
      (str_or (to_clean_str (row_get row "description"))
              (to_clean_str (row_get row "engDescription")))
      (to_clean_str (row_get row "type"))
      (to_clean_str (row_get row "channelGenre"))
      (to_list_from_csv (row_get row "genres"))
      (to_list_from_csv (row_get row "casts")))).
    generalize (VStr (str_or (to_clean_str (row_get row "name"))
                             (to_clean_str (row_get row "engName")))).
    generalize (VStr (str_or (to_clean_str (row_get row "description"))
                             (to_clean_str (row_get row "engDescription")))).
    generalize (VStr (to_clean_str (row_get row "poster"))).
    generalize (VStr (to_clean_str (row_get row "rtukRatingShort"))).
    generalize (VStr (to_clean_str (row_get row "type"))).
    generalize (VStr (to_clean_str (row_get row "channelGenre"))).
    generalize (VStr (to_clean_str
                        (cell_of_ostr (parse_platform_name lit (row_get row "platform"))))).
    generalize (to_int (row_get row "contentId")).
    generalize (year_of_row row).
    generalize (nonempty_list (to_list_from_csv (row_get row "genres"))).
    generalize (nonempty_list (to_list_from_csv (row_get row "casts"))).
    generalize (nonempty_list (Some (map_indexes_from_row row))).
    intros [ixs|] [casts|] [genres|] [year|] [cid|] v1 v2 v3 v4 v5 v6 v7 v8;
      vm_compute; reflexivity. }
  split; [done|].
  rewrite Hsize.
  pose proof (List.filter_length_le
                (λ k, bool_decide (is_Some (item !! k))) optional_fields) as Hle.
  change (length optional_fields) with 5 in Hle. lia.
Qed.

(** ** Field normaliser: the platform name *)

(** X12: [parse_platform_name] gives nothing exactly for [None], NaN
    and blank text; for text that is no [dict] literal it gives the
    trimmed text; for a [dict] literal it gives the keys sorted and
    joined by commas, so that the order in which the literal lists its
    keys does not matter. *)
Theorem parse_platform_name_spec :
  (∀ lit value,
     parse_platform_name lit value = None
     ↔ match value with CVal repr => PyStr.strip repr = "" | _ => True end)
  ∧ (∀ lit repr,
       PyStr.strip repr ≠ "" →
       lit (PyStr.strip repr) = None →
       parse_platform_name lit (CVal repr) = Some (PyStr.strip repr))
  ∧ (∀ lit repr keys,
       PyStr.strip repr ≠ "" →
       lit (PyStr.strip repr) = Some keys →
       ∃ sorted,
         parse_platform_name lit (CVal repr) = Some (PyStr.join "," sorted)
         ∧ sorted ≡ₚ keys
         ∧ Sorted String.le sorted)
  ∧ (∀ lit1 lit2 repr keys1 keys2,
       lit1 (PyStr.strip repr) = Some keys1 →
       lit2 (PyStr.strip repr) = Some keys2 →
       keys1 ≡ₚ keys2 →
       parse_platform_name lit1 (CVal repr) = parse_platform_name lit2 (CVal repr)).
Proof.
  split_and!.
  - intros lit [| |repr]; simpl; [done..|].
    destruct (PyStr.strip repr) as [|c s] eqn:Hs; simpl; [done|].
    destruct (lit (String c s)); done.
  - intros lit repr Hne Hlit. simpl.
    apply truthy_true in Hne. by rewrite Hne, Hlit.
  - intros lit repr keys Hne Hlit. simpl.
    apply truthy_true in Hne. rewrite Hne, Hlit. simpl.
    exists (merge_sort String.le keys). split_and!; [done| |].
    + apply merge_sort_Permutation.
    + apply (Sorted_merge_sort String.le).
  - intros lit1 lit2 repr keys1 keys2 H1 H2 Hperm. simpl.
    destruct (PyStr.truthy (PyStr.strip repr)); simpl; [|done].
    rewrite H1, H2. do 2 f_equal.
    apply (Sorted_unique String.le).
    + apply (Sorted_merge_sort String.le).
    + apply (Sorted_merge_sort String.le).
    + by rewrite !merge_sort_Permutation.
Qed.

(** ** Collection router: further properties *)

Lemma filter_sublist {A} (f : A → bool) (l : list A) :
  List.filter f l `sublist_of` l.
Proof.
  induction l as [|x l IH]; simpl; [done|].
  destruct (f x); by constructor.
Qed.

Lemma NoDup_list_filter {A} (f : A → bool) (l : list A) :
  NoDup l → NoDup (List.filter f l).
Proof. intros Hnd. eapply sublist_NoDup; [done|apply filter_sublist]. Qed.

(** X13: a row is never routed twice to one collection and has at most
    ten targets; without an override the targets are tags of the row in
    the classifier's order, and, when the set of known collections is
    not empty, each of them is a known collection. *)
Theorem route_targets_distinct (lit : string → option (list string))
    (force_collection : option string) (existing : gset string) (row : Row) :
  let targets :=
    route_targets force_collection existing (build_item_from_row lit row) in
  NoDup targets
  ∧ length targets ≤ 10
  ∧ (no_override force_collection →
       targets `sublist_of` map_indexes_from_row row)
  ∧ (no_override force_collection →
       existing ≠ ∅ →
       Forall (λ t, t ∈ existing ∧ t ∈ vocabulary) targets).
Proof.
  intros targets. subst targets. unfold route_targets.
  rewrite item_indexes_build.
  pose proof (NoDup_map_indexes row) as Hnd.
  pose proof (length_map_indexes row) as Hlen.
  destruct (truthy_ostr force_collection) eqn:Hfc.
  - split_and!.
    + apply NoDup_singleton.
    + simpl. lia.
    + intros [-> | ->]; done.
    + intros [-> | ->]; done.
  - split_and!.
    + by apply NoDup_list_filter.
    + pose proof (List.filter_length_le
                    (λ ix, bool_decide (existing = ∅) || bool_decide (ix ∈ existing))
                    (map_indexes_from_row row)). lia.
    + intros _. apply filter_sublist.
    + intros _ Hex. apply Forall_forall. intros t Ht.
      apply list_elem_of_In, List.filter_In in Ht as [Ht Hkeep].
      rewrite (bool_decide_eq_false_2 _ Hex) in Hkeep. simpl in Hkeep.
      apply bool_decide_eq_true in Hkeep.
      apply list_elem_of_In, elem_of_map_indexes in Ht as [_ ?]. done.
Qed.

(** X14: from the command line to the targets: a [--collection]
    argument that is missing, empty or blank routes by tags; any other
    argument gives the one target that is the argument trimmed. *)
Theorem route_targets_of_argument (collection_arg : option string)
    (existing : gset string) (item : Item) :
  route_targets (force_collection_of collection_arg) existing item
  = match collection_arg with
    | Some a =>
        if bool_decide (PyStr.strip a = "")
        then route_targets None existing item
        else [PyStr.strip a]
    | None => route_targets None existing item
    end.
Proof.
  destruct collection_arg as [[|c a]|]; [| |done].
  - rewrite bool_decide_eq_true_2 by done. reflexivity.
  - unfold force_collection_of. cbn [truthy_ostr PyStr.truthy default from_option id].
    destruct (PyStr.strip (String c a)) as [|c' t].
    + rewrite bool_decide_eq_true_2 by done. reflexivity.
    + rewrite bool_decide_eq_false_2 by done. reflexivity.
Qed.

(** ** The run over all rows *)

Section Run.

Context {World : Type}.
Variable post : World → string → list Item → World * PostResult.
Variable print_stdout : Line → option Exn.
Variable lit : string → option (list string).
Variables api_url user_id : string.
Variable force_collection : option string.
Variable existing : gset string.

(** What an iteration does when the row has no target. *)
Lemma process_row_no_targets (st : @RunState World) (idx : nat) (row : Row) :
  row_targets lit force_collection existing row = [] →
  process_row post print_stdout lit api_url user_id force_collection existing
    st idx row
  = print_line print_stdout st idx
      (SkipNoTargets idx (build_item_from_row lit row !! "indexes"))
      SkippedNoTargets false.
Proof.
  unfold row_targets, process_row. intros ->.
  by rewrite (bool_decide_eq_false_2 _ (build_item_size lit row)).
Qed.

(** The counters and the remote state after one iteration, by the way
    it ended. *)
Lemma process_row_step (st : @RunState World) (idx : nat) (row : Row) :
  let r := process_row post print_stdout lit api_url user_id force_collection
             existing st idx row in
  success r.1
  = success st + count_outcome Succeeded [r.2] + count_outcome (Raised true) [r.2]
  ∧ failed r.1
    = failed st + count_outcome Failed [r.2] + count_outcome (Raised true) [r.2]
      + count_outcome (Raised false) [r.2]
  ∧ r.2 ≠ SkippedEmpty
  ∧ (r.2 = SkippedNoTargets → row_targets lit force_collection existing row = [])
  ∧ world r.1
    = world_after post api_url user_id (build_item_from_row lit row)
        (row_targets lit force_collection existing row) (world st)
  ∧ ((∀ line, print_stdout line = None) → ∀ c, r.2 ≠ Raised c).
Proof.
  intros r. subst r.
  destruct (decide (row_targets lit force_collection existing row = [])) as [Hnil|Hne].
  - rewrite (process_row_no_targets st idx row Hnil), Hnil.
    unfold print_line, count_outcome.
    destruct (print_stdout _) as [e|] eqn:Hprint; simpl;
      (split_and!; [lia|lia|done|done|done|]);
      intros Hall c; [by rewrite Hall in Hprint|done].
  - pose proof (process_row_targets post print_stdout lit api_url user_id
                  force_collection existing st idx row Hne) as ->.
    unfold print_line, count_outcome.
    case_bool_decide; [destruct (print_stdout _) as [e|] eqn:Hprint|]; simpl;
      (split_and!; [lia|lia|done|done|done|]);
      intros Hall c; [by rewrite Hall in Hprint|done|done].
Qed.



(** X15: with an override that is not empty no row is skipped: each
    row is posted once, to the override.  When the post fails the row is
    counted as failed and not as succeeded.  When it succeeds the row is
    counted as succeeded, and not as failed if its OK line is printed;
    if printing that line raises, the handler of the loop body counts
    the row as failed as well. *)
Theorem process_row_override (override : string) (st : @RunState World)
    (idx : nat) (row : Row) :
  override ≠ "" →
  let item := build_item_from_row lit row in
  let sent := send_row post api_url user_id (world st) override item in
  let ok_line :=
    OkRow idx (default (VStr "<no name>") (item !! "name")) [override] in
  let r := process_row post print_stdout lit api_url user_id (Some override)
             existing st idx row in
  (r.2 = Succeeded ∨ r.2 = Failed ∨ r.2 = Raised true)
  ∧ world r.1 = sent.1
  ∧ (raises sent.2 = true →
       r.2 = Failed ∧ success r.1 = success st ∧ failed r.1 = S (failed st))
  ∧ (raises sent.2 = false → print_stdout ok_line = None →
       r.2 = Succeeded ∧ success r.1 = S (success st) ∧ failed r.1 = failed st)
  ∧ (raises sent.2 = false → print_stdout ok_line ≠ None →
       r.2 = Raised true
       ∧ success r.1 = S (success st) ∧ failed r.1 = S (failed st)).
Proof.
  intros Hne item sent ok_line r. subst r.
  assert (route_targets (Some override) existing item = [override]) as Ht
    by (by destruct override).
  assert (route_targets (Some override) existing item ≠ [])
    as Hnn by (by rewrite Ht).
  rewrite (process_row_targets post print_stdout lit api_url user_id
             (Some override) existing st idx row Hnn).
  fold item. rewrite Ht. fold ok_line.
  unfold world_after. cbn [attempts fold_left]. fold sent.
  destruct sent as [w [d|e]]; cbn [fst snd raises].
  - rewrite bool_decide_eq_true_2
      by (constructor; [reflexivity|constructor]).
    unfold print_line.
    destruct (print_stdout ok_line) as [e|]; simpl; split_and!; auto; done.
  - rewrite bool_decide_eq_false_2
      by (intros Hall; by apply Forall_inv in Hall).
    simpl. split_and!; auto; done.
Qed.


(** X17: the remote sees, row after row, the deliveries to each row's
    targets and nothing else: neither a failed delivery nor a skipped
    row stops the run or undoes a delivery. *)
Theorem run_rows_world (rows : list Row) (st : @RunState World) (idx : nat) :
  world (run_rows post print_stdout lit api_url user_id force_collection
           existing st idx rows)
  = world_after_rows post lit api_url user_id force_collection existing
      rows (world st).
Proof.
  revert st idx. induction rows as [|row rows IH]; intros st idx; [done|].
  cbn [run_rows]. rewrite IH.
  destruct (process_row_step st idx row) as (_ & _ & _ & _ & -> & _). done.
Qed.

End Run.

(** ** The URL of a delivery *)

Lemma rstrip_with_snoc (p : ascii → bool) (c : ascii) (s : string) :
  p c = true →
  PyStr.rstrip_with p (s +:+ String c "") = PyStr.rstrip_with p s.
Proof.
  intros Hc. induction s as [|c' s IH].
  - simpl. by rewrite Hc.
  - change (String c' s +:+ String c "") with (String c' (s +:+ String c "")).
    by rewrite !rstrip_with_cons, IH.
Qed.

Lemma append_assoc (a b c : string) : (a +:+ b) +:+ c = a +:+ (b +:+ c).
Proof.
  induction a as [|x a IH]; [done|].
  change (String x ((a +:+ b) +:+ c) = String x (a +:+ (b +:+ c))).
  by rewrite IH.
Qed.

Lemma slashes_snoc (n : nat) : slashes (S n) = slashes n +:+ "/".
Proof.
  induction n as [|n IH]; [done|].
  change (String "/" (slashes (S n)) = String "/" (slashes n +:+ "/")).
  by rewrite IH.
Qed.

Lemma append_empty_r (s : string) : s +:+ "" = s.
Proof.
  induction s as [|c s IH]; [done|].
  change (String c (s +:+ "") = String c s). by rewrite IH.
Qed.

Lemma rstrip_char_slashes (s : string) (n : nat) :
  PyStr.rstrip_char "/" (s +:+ slashes n) = PyStr.rstrip_char "/" s.
Proof.
  unfold PyStr.rstrip_char. induction n as [|n IH].
  - cbn [slashes]. by rewrite append_empty_r.
  - rewrite slashes_snoc, <- append_assoc, rstrip_with_snoc; [done|].
    by rewrite bool_decide_eq_true_2.
Qed.

Lemma rstrip_char_no_tail (ch : ascii) (s t : string) :
  PyStr.rstrip_char ch s ≠ t +:+ String ch "".
Proof.
  unfold PyStr.rstrip_char. revert t.
  induction s as [|c s IH]; intros t.
  - simpl. by destruct t.
  - rewrite rstrip_with_cons.
    destruct (PyStr.rstrip_with _ s) as [|c' r] eqn:Hr.
    + case_bool_decide as Hc; [by destruct t|].
      destruct t as [|c1 [|c2 t]]; simpl; try done. intros [= ?]. done.
    + destruct t as [|c1 t]; simpl; [done|].
      intros [= -> Heq]. by apply (IH t).
Qed.

(** X18: slashes at the end of the API address do not change the URL a
    row is posted to, and the address part of that URL never ends in a
    slash before "/db/". *)
Theorem import_url_trailing_slashes :
  (∀ api_url n user_id collection,
     import_url (api_url +:+ slashes n) user_id collection
     = import_url api_url user_id collection)
  ∧ (∀ api_url user_id collection,
       ∃ base,
         import_url api_url user_id collection
         = base +:+ "/db/" +:+ user_id +:+ "/import/" +:+ collection
         ∧ (∀ t, base ≠ t +:+ "/")
         ∧ ∃ n, api_url = base +:+ slashes n).
Proof.
  split.
  - intros api_url n user_id collection. unfold import_url.
    by rewrite rstrip_char_slashes.
  - intros api_url user_id collection.
    exists (PyStr.rstrip_char "/" api_url). split_and!; [done| |].
    + intros t. apply rstrip_char_no_tail.
    + unfold PyStr.rstrip_char. induction api_url as [|c s IH].
      * by exists 0.
      * rewrite rstrip_with_cons. destruct IH as [n Hn].
        destruct (PyStr.rstrip_with _ s) as [|c' r] eqn:Hr.
        -- case_bool_decide as Hc.
           ++ subst c. exists (S n). simpl in *. by rewrite Hn.
           ++ exists n. simpl in *. by rewrite Hn.
        -- exists n. simpl in *. by rewrite Hn at 1.
Qed.

(** ** The importer against the import route *)

(** X19: a delivery to the import route of this repository succeeds
    exactly when the items are a non-empty list and [insert_many]
    returns a result without errors; and the one-item batch the
    importer sends is never answered with status 400. *)
Theorem send_row_against_route :
  (∀ items run body_text,
     raises (send_row_result
               (reply_response (import_collection_data items run) body_text))
     = false
     ↔ ∃ its result,
         items = Some its ∧ its ≠ [] ∧ run = Inserts result
         ∧ default false (has_errors result) = false)
  ∧ (∀ item run,
       reply_status (import_collection_data (Some [item]) run) = 200%Z
       ∨ reply_status (import_collection_data (Some [item]) run) = 500%Z).
Proof.
  split.
  - intros items run body_text.
    rewrite <- not_true_iff_false, reply_response_raises.
    destruct run as [msg|msg|result], items as [[|it its]|]; simpl;
      try (split; [intros H; destruct H; left; done
                  |by (intros (?&?&?&?&?&?); simplify_eq)]).
    unfold insert_report.
    destruct (default false (has_errors result)) eqn:Herr; simpl.
    + split.
      * intros H. destruct H. right; left.
        by destruct (batch_errors result) as [[|??]|].
      * intros (?&?&?&?&?&?). simplify_eq. congruence.
    + split.
      * intros _. by exists (it :: its), result.
      * intros _ [?|[?|?]]; done.
  - intros item [msg|msg|result]; simpl; auto.
    destruct (insert_report 1 result). simpl. auto.
Qed.

(** ** The schema of a created collection *)

(** X20: the schema the import route creates declares thirteen
    properties with distinct names, which are the thirteen keys an item
    of the importer can have, and every value of such an item fits the
    type declared for its key: text for a string, text array for a list,
    number for an integer. *)
Theorem schema_covers_items :
  NoDup schema_props.*1
  ∧ length schema_props = 13
  ∧ (∀ k, k ∈ schema_props.*1 ↔ k ∈ text_fields ++ optional_fields)
  ∧ (∀ lit row k v,
       build_item_from_row lit row !! k = Some v →
       ∃ ty, (k, ty) ∈ schema_props ∧ fits v ty).
Proof.
  split_and!.
  - apply (bool_decide_unpack _). by vm_compute.
  - done.
  - intros k. split; intros Hk; apply list_elem_of_In in Hk; vm_compute in Hk;
      destruct_or!; try done; subst k; apply (bool_decide_unpack _); by vm_compute.
  - intros lit row k v Hv. apply item_values in Hv.
    destruct Hv as [(Hk & s & ->) | [(Hk & z & ->) | (Hk & x & l & ->)]];
      apply list_elem_of_In in Hk; vm_compute in Hk; destruct_or!; try done;
      subst k;
      first [ exists TEXT; split; [apply list_elem_of_In; vm_compute; tauto|done]
            | exists NUMBER; split; [apply list_elem_of_In; vm_compute; tauto|done]
            | exists TEXT_ARRAY; split;
              [apply list_elem_of_In; vm_compute; tauto|done] ].
Qed.

(** ** The normaliser of the import route *)

Lemma lookup_split_field (x : gmap string Json) (k k' : string) :
  split_field x k !! k'
  = if decide (k = k') then split_value (x !! k) else x !! k'.
Proof.
  unfold split_field, split_value.
  destruct (decide (k = k')) as [<-|Hne].
  - destruct (x !! k) as [[ | | |s| | ]|] eqn:Hk; rewrite ?Hk; try done.
    by rewrite lookup_insert_eq.
  - destruct (x !! k) as [[ | | |s| | ]|]; try done.
    by rewrite lookup_insert_ne.
Qed.

Lemma split_value_idem (o : option Json) : split_value (split_value o) = split_value o.
Proof. by destruct o as [[ | | |s| | ]|]. Qed.

Lemma lookup_split_fields (x : gmap string Json) (k : string) :
  fold_left split_field ["genres"; "casts"; "indexes"] x !! k
  = if bool_decide (k ∈ ["genres"; "casts"; "indexes"])
    then split_value (x !! k)
    else x !! k.
Proof.
  cbn [fold_left]. rewrite !lookup_split_field.
  destruct (decide (k = "genres")) as [->|Hg]; [done|].
  destruct (decide (k = "casts")) as [->|Hc]; [done|].
  destruct (decide (k = "indexes")) as [->|Hi]; [done|].
  rewrite bool_decide_eq_false_2 by set_solver.
  by repeat (case_decide; [congruence|]).
Qed.

Section ServerNormalizerFacts.

Variable repr_container : Json → string.

(** Every entry of the normalised object is read off the object that
    came in. *)
Lemma norm_item_lookup (obj : gmap string Json) (k : string) :
  norm_item repr_container obj !! k = norm_value repr_container obj k.
Proof.
  unfold norm_item. cbv zeta.
  set (x1 := fold_left split_field ["genres"; "casts"; "indexes"] obj).
  assert (∀ k', k' ∉ ["genres"; "casts"; "indexes"] → x1 !! k' = obj !! k') as H1.
  { intros k' Hk'. subst x1. rewrite lookup_split_fields.
    by rewrite bool_decide_eq_false_2. }
  assert (x1 !! k = if bool_decide (k ∈ ["genres"; "casts"; "indexes"])
                    then split_value (obj !! k) else obj !! k) as H1k
    by apply lookup_split_fields.
  rewrite (H1 "platform") by set_solver.
  rewrite (H1 "platform_name") by set_solver.
  set (x2 := match obj !! "platform" with
             | Some (JObj pf) =>
                 if bool_decide (is_Some (assoc "name" pf))
                    && negb (bool_decide (is_Some (obj !! "platform_name")))
                 then <["platform_name":=default JNull (assoc "name" pf)]> x1
                 else x1
             | _ => x1
             end).
  assert (∀ k', k' ≠ "platform_name" → x2 !! k' = x1 !! k') as H2.
  { intros k' Hk'. subst x2.
    destruct (obj !! "platform") as [[ | | | | |pf]|]; try done.
    destruct (_ && _); [|done]. by rewrite lookup_insert_ne. }
  assert (x2 !! "platform_name"
          = match obj !! "platform", obj !! "platform_name" with
            | Some (JObj pf), None => assoc "name" pf
            | _, o => o
            end) as H2k.
  { subst x2.
    destruct (obj !! "platform") as [[ | | | | |pf]|];
      try (rewrite H1 by set_solver; by destruct (obj !! "platform_name")).
    destruct (obj !! "platform_name") as [pn|] eqn:Hpn.
    - rewrite (bool_decide_eq_true_2 (is_Some (Some pn))) by (by eexists).
      rewrite andb_false_r, H1 by set_solver. done.
    - rewrite (bool_decide_eq_false_2 (is_Some None)) by (by intros [? [=]]).
      destruct (assoc "name" pf) as [v|] eqn:Hv.
      + rewrite bool_decide_eq_true_2 by (by eexists).
        simpl. by rewrite lookup_insert_eq.
      + rewrite bool_decide_eq_false_2 by (by intros [? [=]]).
        simpl. by rewrite H1 by set_solver. }
  rewrite (H2 "date"), (H1 "date") by (done || set_solver).
  assert (year_is_none x2 = year_is_none obj) as ->.
  { unfold year_is_none. by rewrite (H2 "year"), (H1 "year") by (done || set_solver). }
  set (x3 := match obj !! "date" with
             | Some (JStr d) =>
                 if bool_decide (4 ≤ PyStr.len d) && year_is_none obj
                 then match PyStr.int (PyStr.prefix 4 d) with
                      | Some y => <["year":=JInt y]> x2
                      | None => x2
                      end
                 else x2
             | _ => x2
             end).
  assert (∀ k', k' ≠ "year" → x3 !! k' = x2 !! k') as H3.
  { intros k' Hk'. subst x3.
    destruct (obj !! "date") as [[ | | |d| | ]|]; try done.
    destruct (_ && _); [|done].
    destruct (PyStr.int _); [|done]. by rewrite lookup_insert_ne. }
  assert (x3 !! "year"
          = match obj !! "date" with
            | Some (JStr d) =>
                if bool_decide (4 ≤ PyStr.len d) && year_is_none obj
                then match PyStr.int (PyStr.prefix 4 d) with
                     | Some y => Some (JInt y)
                     | None => obj !! "year"
                     end
                else obj !! "year"
            | _ => obj !! "year"
            end) as H3k.
  { assert (x2 !! "year" = obj !! "year") as Hy
      by (by rewrite (H2 "year"), (H1 "year") by (done || set_solver)).
    subst x3.
    destruct (obj !! "date") as [[ | | |d| | ]|]; try done.
    destruct (_ && _); [|done].
    destruct (PyStr.int _); [|done]. by rewrite lookup_insert_eq. }
  rewrite (H3 "rtukRatingShort"), (H2 "rtukRatingShort"), (H1 "rtukRatingShort")
    by (done || set_solver).
  assert (x3 !! "ageLimit" = obj !! "ageLimit") as Hage
    by (by rewrite (H3 "ageLimit"), (H2 "ageLimit"), (H1 "ageLimit")
          by (done || set_solver)).
  rewrite Hage.
  destruct (decide (k = "ageLimit")) as [->|Hka].
  { change (norm_value repr_container obj "ageLimit")
      with (match obj !! "rtukRatingShort", obj !! "ageLimit" with
            | Some r, None => Some (JStr (PyStr.strip (py_str repr_container r)))
            | _, o => o
            end).
    destruct (obj !! "rtukRatingShort") as [r|]; [|by rewrite Hage].
    destruct (obj !! "ageLimit") as [a|] eqn:Ha.
    - rewrite (bool_decide_eq_true_2 (is_Some (Some a))) by (by eexists).
      simpl. by rewrite Hage.
    - rewrite (bool_decide_eq_false_2 (is_Some None)) by (by intros [? [=]]).
      simpl. by rewrite lookup_insert_eq. }
  assert ((match obj !! "rtukRatingShort" with
           | Some r =>
               if negb (bool_decide (is_Some (obj !! "ageLimit")))
               then <["ageLimit":=JStr (PyStr.strip (py_str repr_container r))]> x3
               else x3
           | None => x3
           end) !! k = x3 !! k) as ->.
  { destruct (obj !! "rtukRatingShort"); [|done].
    destruct (negb (bool_decide (is_Some (obj !! "ageLimit")))); [|done].
    by rewrite lookup_insert_ne. }
  destruct (decide (k = "year")) as [->|Hky].
  { rewrite H3k. reflexivity. }
  rewrite (H3 k) by done.
  destruct (decide (k = "platform_name")) as [->|Hkp].
  { rewrite H2k. reflexivity. }
  rewrite (H2 k), H1k by done.
  unfold norm_value.
  case_bool_decide; [done|].
  rewrite (bool_decide_eq_false_2 (k = "platform_name")) by done.
  rewrite (bool_decide_eq_false_2 (k = "year")) by done.
  by rewrite (bool_decide_eq_false_2 (k = "ageLimit")) by done.
Qed.

End ServerNormalizerFacts.

Lemma item_absent (lit : string → option (list string)) (row : Row) (k : string) :
  k ∉ text_fields ++ optional_fields → build_item_from_row lit row !! k = None.
Proof.
  intros Hk. destruct (build_item_from_row lit row !! k) eqn:Hv; [|done].
  destruct Hk. apply item_keys with lit row. by eexists.
Qed.

Lemma item_array_value (lit : string → option (list string)) (row : Row) (k : string) :
  k ∈ ["genres"; "casts"; "indexes"] →
  split_value (item_json (build_item_from_row lit row) !! k)
  = item_json (build_item_from_row lit row) !! k.
Proof.
  intros Hk. unfold item_json. rewrite lookup_fmap.
  destruct (build_item_from_row lit row !! k) as [v|] eqn:Hv; [|done].
  apply item_values in Hv.
  destruct Hv as [(Hk' & s & ->) | [(Hk' & z & ->) | (_ & x & l & ->)]]; [| |done].
  - apply list_elem_of_In in Hk, Hk'. simpl in Hk, Hk'.
    destruct_or!; subst; done.
  - done.
Qed.

Section ServerNormalizerProperties.

Variable repr_container : Json → string.

(** X21: the normaliser of the import route changes nothing in an item
    the importer built: what is stored is what was sent. *)
Theorem norm_item_importer_items (lit : string → option (list string)) (row : Row) :
  norm_item repr_container (item_json (build_item_from_row lit row))
  = item_json (build_item_from_row lit row).
Proof.
  apply map_eq. intros k. rewrite norm_item_lookup. unfold norm_value.
  assert (∀ k', k' ∉ text_fields ++ optional_fields →
                item_json (build_item_from_row lit row) !! k' = None) as Hnone.
  { intros k' Hk'. unfold item_json. by rewrite lookup_fmap, item_absent. }
  rewrite (Hnone "platform"), (Hnone "date"), (Hnone "rtukRatingShort")
    by (apply (bool_decide_unpack _); by vm_compute).
  case_bool_decide as Harr; [by apply item_array_value|].
  repeat case_bool_decide; by subst.
Qed.

(** X22: the normaliser of the import route removes no key, leaves
    every key other than [genres], [casts], [indexes], [platform_name],
    [year] and [ageLimit] as it is, never replaces an [ageLimit], a
    [platform_name] or a [year] that is not null, and leaves an array
    field that is not a string as it is. *)
Theorem norm_item_preserves (obj : gmap string Json) :
  (∀ k, is_Some (obj !! k) → is_Some (norm_item repr_container obj !! k))
  ∧ (∀ k, k ∉ normalised_keys → norm_item repr_container obj !! k = obj !! k)
  ∧ (∀ v, obj !! "ageLimit" = Some v →
          norm_item repr_container obj !! "ageLimit" = Some v)
  ∧ (∀ v, obj !! "platform_name" = Some v →
          norm_item repr_container obj !! "platform_name" = Some v)
  ∧ (∀ v, obj !! "year" = Some v → v ≠ JNull →
          norm_item repr_container obj !! "year" = Some v)
  ∧ (∀ k v, k ∈ ["genres"; "casts"; "indexes"] →
            obj !! k = Some v → (∀ s, v ≠ JStr s) →
            norm_item repr_container obj !! k = Some v).
Proof.
  split_and!.
  - intros k [v Hv]. rewrite norm_item_lookup. unfold norm_value, year_is_none.
    repeat case_bool_decide; subst; rewrite ?Hv;
      repeat case_match; simplify_eq/=; eauto.
    unfold split_value. destruct v; eauto.
  - intros k Hk. rewrite norm_item_lookup. unfold norm_value.
    rewrite bool_decide_eq_false_2 by (intros ?; apply Hk; set_solver).
    rewrite !(bool_decide_eq_false_2 (k = _))
      by (intros ->; apply Hk; set_solver).
    done.
  - intros v Hv. rewrite norm_item_lookup.
    change (norm_value repr_container obj "ageLimit")
      with (match obj !! "rtukRatingShort", obj !! "ageLimit" with
            | Some r, None => Some (JStr (PyStr.strip (py_str repr_container r)))
            | _, o => o
            end).
    rewrite Hv. by destruct (obj !! "rtukRatingShort").
  - intros v Hv. rewrite norm_item_lookup.
    change (norm_value repr_container obj "platform_name")
      with (match obj !! "platform", obj !! "platform_name" with
            | Some (JObj pf), None => assoc "name" pf
            | _, o => o
            end).
    rewrite Hv. by destruct (obj !! "platform") as [[ | | | | | ]|].
  - intros v Hv Hnull. rewrite norm_item_lookup.
    change (norm_value repr_container obj "year")
      with (match obj !! "date" with
            | Some (JStr d) =>
                if bool_decide (4 ≤ PyStr.len d) && year_is_none obj
                then match PyStr.int (PyStr.prefix 4 d) with
                     | Some y => Some (JInt y)
                     | None => obj !! "year"
                     end
                else obj !! "year"
            | _ => obj !! "year"
            end).
    assert (year_is_none obj = false) as ->.
    { unfold year_is_none. rewrite Hv. by destruct v. }
    destruct (obj !! "date") as [[ | | |d| | ]|]; try done.
    by rewrite andb_false_r.
  - intros k v Hk Hv Hstr. rewrite norm_item_lookup. unfold norm_value.
    rewrite bool_decide_eq_true_2 by done. rewrite Hv.
    destruct v; try done. by destruct (Hstr s).
Qed.

(** X23: normalising a normalised object changes nothing. *)
Theorem norm_item_idempotent (obj : gmap string Json) :
  norm_item repr_container (norm_item repr_container obj)
  = norm_item repr_container obj.
Proof.
  apply map_eq. intros k.
  rewrite (norm_item_lookup _ (norm_item repr_container obj) k).
  unfold norm_value at 1. unfold year_is_none at 1.
  rewrite !norm_item_lookup.
  change (norm_value repr_container obj "platform") with (obj !! "platform").
  change (norm_value repr_container obj "date") with (obj !! "date").
  change (norm_value repr_container obj "rtukRatingShort")
    with (obj !! "rtukRatingShort").
  case_bool_decide as Harr.
  { unfold norm_value. rewrite bool_decide_eq_true_2 by done.
    apply split_value_idem. }
  case_bool_decide as Hpn.
  { subst k.
    change (norm_value repr_container obj "platform_name")
      with (match obj !! "platform", obj !! "platform_name" with
            | Some (JObj pf), None => assoc "name" pf
            | _, o => o
            end).
    destruct (obj !! "platform") as [[ | | | | |pf]|];
      destruct (obj !! "platform_name"); try done.
    by destruct (assoc "name" pf). }
  case_bool_decide as Hy.
  { subst k.
    change (norm_value repr_container obj "year")
      with (match obj !! "date" with
            | Some (JStr d) =>
                if bool_decide (4 ≤ PyStr.len d) && year_is_none obj
                then match PyStr.int (PyStr.prefix 4 d) with
                     | Some y => Some (JInt y)
                     | None => obj !! "year"
                     end
                else obj !! "year"
            | _ => obj !! "year"
            end).
    destruct (obj !! "date") as [[ | | |d| | ]|]; try done.
    unfold year_is_none.
    generalize (PyStr.int (PyStr.prefix 4 d)).
    generalize (bool_decide (4 ≤ PyStr.len d)).
    intros long parsed.
    destruct long, parsed as [y|], (obj !! "year") as [[ | | | | | ]|] eqn:Hyear;
      simpl; rewrite ?Hyear; done. }
  case_bool_decide as Ha; [|done].
  subst k.
  change (norm_value repr_container obj "ageLimit")
    with (match obj !! "rtukRatingShort", obj !! "ageLimit" with
          | Some r, None => Some (JStr (PyStr.strip (py_str repr_container r)))
          | _, o => o
          end).
  destruct (obj !! "rtukRatingShort") as [r|]; [|done].
  by destruct (obj !! "ageLimit").
Qed.

End ServerNormalizerProperties.

(** ** Discovery of the existing collections *)

Section DiscoveryProperties.

Variable repr_container : Json → string.

Lemma add_names_entries (elems : list Json) (existing : gset string) :
  Forall listing_entry elems →
  add_names repr_container elems existing
  = (existing ∪ list_to_set (List.filter PyStr.truthy (entry_name <$> elems)), true).
Proof.
  revert existing. induction elems as [|c elems IH]; intros existing Hall.
  { simpl. f_equal. set_solver. }
  apply Forall_cons in Hall as [(fields & -> & Hname) Hall].
  cbn [add_names]. rewrite (IH _ Hall). rewrite fmap_cons. cbn [List.filter].
  simpl (entry_name (JObj fields)).
  destruct Hname as [Hn | [s Hn]]; rewrite Hn; simpl.
  - done.
  - destruct s as [|ch s]; simpl; [done|]. f_equal. set_solver.
Qed.

Lemma add_names_stops (before after : list Json) (bad : Json)
    (existing : gset string) :
  Forall is_object before →
  ¬ is_object bad →
  add_names repr_container (before ++ bad :: after) existing
  = ((add_names repr_container before existing).1, false).
Proof.
  revert existing. induction before as [|c before IH]; intros existing Hall Hbad.
  - simpl. destruct bad; try done. destruct Hbad. by eexists.
  - apply Forall_cons in Hall as [[fields ->] Hall]. simpl. by apply IH.
Qed.

(** X24: when the listing arrives as JSON with a list of entries, each
    an object whose name, if any, is a string, the discovered set is
    the set of the names that are not empty, and no warning is given. *)
Theorem discover_listing (ct : string) (body_fields : list (string * Json))
    (elems : list Json) :
  startswith ct "application/json" = true →
  assoc "collections" body_fields = Some (JArr elems) →
  Forall listing_entry elems →
  discover repr_container
    (GetReturns {| content_type := Some ct; listing := Some (JObj body_fields) |})
  = (list_to_set (List.filter PyStr.truthy (entry_name <$> elems)), true)
  ∧ ∀ name,
      name ∈ (discover repr_container
                (GetReturns {| content_type := Some ct;
                               listing := Some (JObj body_fields) |})).1
      ↔ name ≠ "" ∧ ∃ c, c ∈ elems ∧ entry_name c = name.
Proof.
  intros Hct Hcols Hall.
  assert (discover repr_container
            (GetReturns {| content_type := Some ct;
                           listing := Some (JObj body_fields) |})
          = (list_to_set (List.filter PyStr.truthy (entry_name <$> elems)), true))
    as Heq.
  { unfold discover. simpl. rewrite Hct, Hcols. simpl.
    rewrite (add_names_entries _ _ Hall). f_equal. set_solver. }
  split; [done|].
  intros name. rewrite Heq. simpl.
  rewrite elem_of_list_to_set, list_elem_of_In, List.filter_In,
    <- list_elem_of_In, list_elem_of_fmap, truthy_true.
  naive_solver.
Qed.

(** X25: an element of the listing that is not an object ends the
    discovery with the warning; the names of the entries before it are
    kept and those after it are never read. *)
Theorem discover_stops_at_bad_entry (ct : string)
    (body_fields : list (string * Json)) (before after : list Json) (bad : Json) :
  startswith ct "application/json" = true →
  assoc "collections" body_fields = Some (JArr (before ++ bad :: after)) →
  Forall listing_entry before →
  ¬ is_object bad →
  discover repr_container
    (GetReturns {| content_type := Some ct; listing := Some (JObj body_fields) |})
  = (list_to_set (List.filter PyStr.truthy (entry_name <$> before)), false).
Proof.
  intros Hct Hcols Hall Hbad. unfold discover. simpl.
  rewrite Hct, Hcols. simpl.
  rewrite add_names_stops; [|by eapply Forall_impl; [done|]; intros ? (?&?&?); eexists|done].
  rewrite (add_names_entries _ _ Hall). simpl. f_equal. set_solver.
Qed.

(** X26: a listing request that raises, a reply that is not announced
    as JSON or whose body does not parse, is no object or has no
    "collections" entry leave the discovered set empty, and the router
    then passes every tag of an item on. *)
Theorem discover_nothing (g : GetResult) (item : Item) :
  (match g with
   | GetRaises _ => True
   | GetReturns r =>
       startswith (default "" (content_type r)) "application/json" = false
       ∨ listing r = None
       ∨ (∃ d, listing r = Some d ∧ ¬ is_object d)
       ∨ (∃ fields, listing r = Some (JObj fields)
                    ∧ assoc "collections" fields = None)
   end) →
  (discover repr_container g).1 = ∅
  ∧ route_targets None (discover repr_container g).1 item = item_indexes item.
Proof.
  intros Hg.
  assert ((discover repr_container g).1 = ∅) as Hempty.
  { destruct g as [msg|r]; [done|]. unfold discover.
    destruct (startswith _ _); [|done].
    destruct Hg as [?|[->|[(d & -> & Hd)|(fields & -> & ->)]]]; try done.
    destruct d; try done. destruct Hd. by eexists. }
  split; [done|]. rewrite Hempty. unfold route_targets. simpl.
  rewrite <- (filter_all_true (item_indexes item)) at 2.
  apply List.filter_ext. intros ix. by rewrite bool_decide_eq_true_2.
Qed.

End DiscoveryProperties.

(** * The further properties at concrete inputs *)

Lemma to_str_cleaned_witness :
  PyStr.strip "Drama" = "Drama"
  ∧ "Drama" ≠ ""
  ∧ (PyStr.lower "Drama" ∉ sentinels)
  ∧ to_str (CVal "Drama") = Some "Drama".
Proof.
  apply (proj2 to_str_cleaned (CVal "  Drama ") "Drama").
  vm_compute. reflexivity.
Defined.

Lemma to_int_decimal_witness :
  to_int (CVal "2024") = Some 2024%Z
  ∧ to_int (CVal "+2024") = Some 2024%Z
  ∧ to_int (CVal "-2024") = Some (-2024)%Z
  ∧ to_int (CVal (nines 4300)) = Some (decimal_value 0 (nines 4300))
  ∧ to_int (CVal (nines 4301)) = None.
Proof.
  destruct (to_int_decimal "2024") as [Hshort _]; [discriminate|reflexivity|].
  destruct (to_int_decimal (nines 4300)) as [Hmost _];
    [vm_compute; discriminate|vm_compute; reflexivity|].
  destruct (to_int_decimal (nines 4301)) as [_ Hlong];
    [vm_compute; discriminate|vm_compute; reflexivity|].
  destruct Hshort as (H1 & H2 & H3); [vm_compute; discriminate|].
  destruct Hmost as (H4 & _); [vm_compute; discriminate|].
  destruct Hlong as (H5 & _); [vm_compute; reflexivity|].
  split_and!; [exact H1|exact H2|exact H3|exact H4|exact H5].
Defined.

Lemma to_int_rejects_witness : to_int (CVal "123.0") = None.
Proof.
  apply (to_int_rejects "123.0" "."%char);
    [reflexivity|reflexivity|discriminate|discriminate|discriminate|reflexivity].
Defined.

Lemma to_list_from_csv_parts_witness :
  Forall (λ part, part ≠ "" ∧ PyStr.strip part = part ∧ has_char "," part = false)
         ["a"; "b"; "c"].
Proof. apply (to_list_from_csv_parts (CVal "a, b ,c")). reflexivity. Defined.

Lemma map_indexes_from_row_empty_witness : map_indexes_from_row bogus_row = [].
Proof.
  destruct map_indexes_from_row_empty as (_ & _ & Hnone).
  apply Hnone.
  - vm_compute. discriminate.
  - apply (bool_decide_unpack _). vm_compute. exact I.
  - vm_compute. exact I.
Defined.

Lemma map_indexes_from_row_sources_witness :
  "movie" ∈ map_indexes_from_row movie_row.
Proof.
  destruct map_indexes_from_row_sources as (Htype & _ & _).
  apply Htype. apply (bool_decide_unpack _). vm_compute. exact I.
Defined.

Lemma dedup_allowed_stable_witness :
  dedup_allowed ["serie"; "movie"] = ["serie"; "movie"].
Proof.
  destruct dedup_allowed_stable as (Hid & _).
  apply Hid; apply (bool_decide_unpack _); vm_compute; exact I.
Defined.

Lemma build_item_year_range_witness : (-999 ≤ 2019 ≤ 9999)%Z.
Proof.
  apply (build_item_year_range no_dict_literal scenario_row 2019).
  vm_compute. reflexivity.
Defined.

Lemma parse_platform_name_spec_witness :
  parse_platform_name literal_web_first (CVal platform_text)
  = parse_platform_name literal_iptv_first (CVal platform_text)
  ∧ parse_platform_name no_dict_literal (CVal " web ") = Some "web".
Proof.
  destruct parse_platform_name_spec as (_ & Htext & _ & Horder).
  split.
  - apply (Horder _ _ _ ["web"; "iptv"] ["iptv"; "web"]);
      [vm_compute; reflexivity..|]. apply Permutation_swap.
  - apply (Htext no_dict_literal " web "); [vm_compute; discriminate|reflexivity].
Defined.

Lemma route_targets_distinct_witness :
  Forall (λ t, t ∈ ({[ "movie" ]} : gset string) ∧ t ∈ vocabulary)
         (route_targets None {[ "movie" ]}
            (build_item_from_row no_dict_literal movie_row)).
Proof.
  destruct (route_targets_distinct no_dict_literal None {[ "movie" ]} movie_row)
    as (_ & _ & _ & Hknown).
  apply Hknown; [left; reflexivity|].
  apply (bool_decide_unpack _). vm_compute. exact I.
Defined.

Lemma process_row_override_witness :
  let r := process_row demo_post demo_print no_dict_literal "http://host/" "u1"
             (Some "archive") ∅ demo_start 0 bogus_row in
  let r' := process_row demo_post ascii_print no_dict_literal "http://host/" "u1"
              (Some "archive") ∅ demo_start 0 accented_row in
  r.2 = Succeeded
  ∧ success r.1 = 1 ∧ failed r.1 = 0
  ∧ world r.1 = ["http://host/db/u1/import/archive"]
  ∧ r'.2 = Raised true
  ∧ success r'.1 = 1 ∧ failed r'.1 = 1
  ∧ world r'.1 = ["http://host/db/u1/import/archive"].
Proof.
  intros r r'.
  destruct (process_row_override demo_post demo_print no_dict_literal
              "http://host/" "u1" ∅ "archive" demo_start 0 bogus_row)
    as (_ & Hworld & _ & Hok & _); [discriminate|].
  destruct (process_row_override demo_post ascii_print no_dict_literal
              "http://host/" "u1" ∅ "archive" demo_start 0 accented_row)
    as (_ & Hworld' & _ & _ & Hraised); [discriminate|].
  destruct Hok as (Ho & Hs & Hf); [vm_compute; reflexivity|reflexivity|].
  destruct Hraised as (Ho' & Hs' & Hf');
    [vm_compute; reflexivity|vm_compute; discriminate|].
  split_and!.
  - exact Ho.
  - exact Hs.
  - exact Hf.
  - subst r. rewrite Hworld. vm_compute. reflexivity.
  - exact Ho'.
  - exact Hs'.
  - exact Hf'.
  - subst r'. rewrite Hworld'. vm_compute. reflexivity.
Defined.


Lemma schema_covers_items_witness :
  ∃ ty, ("year", ty) ∈ schema_props ∧ fits (VInt 2019) ty.
Proof.
  destruct schema_covers_items as (_ & _ & _ & Hfits).
  apply (Hfits no_dict_literal scenario_row). vm_compute. reflexivity.
Defined.

Lemma norm_item_preserves_witness :
  norm_item demo_repr
    (<["ageLimit" := JStr "18+"]> {[ "rtukRatingShort" := JStr "7+" ]})
    !! "ageLimit"
  = Some (JStr "18+").
Proof.
  destruct (norm_item_preserves demo_repr
              (<["ageLimit" := JStr "18+"]> {[ "rtukRatingShort" := JStr "7+" ]}))
    as (_ & _ & Hage & _).
  apply Hage. vm_compute. reflexivity.
Defined.

Lemma discover_listing_witness :
  discover demo_repr
    (GetReturns {| content_type := Some "application/json; charset=utf-8";
                   listing := Some (JObj demo_listing) |})
  = (list_to_set ["movie"], true).
Proof.
  apply (discover_listing demo_repr "application/json; charset=utf-8" demo_listing
           [ JObj [("name", JStr "movie"); ("total", JInt 12)];
             JObj [("name", JStr "")] ]).
  - reflexivity.
  - reflexivity.
  - repeat constructor; eexists; (split; [reflexivity|]); right; eexists;
      reflexivity.
Defined.

Lemma discover_stops_at_bad_entry_witness :
  discover demo_repr
    (GetReturns {| content_type := Some "application/json";
                   listing := Some (JObj broken_listing) |})
  = (list_to_set ["movie"], false).
Proof.
  apply (discover_stops_at_bad_entry demo_repr "application/json" broken_listing
           [JObj [("name", JStr "movie")]] [JObj [("name", JStr "serie")]]
           (JStr "serie")).
  - reflexivity.
  - reflexivity.
  - repeat constructor. eexists. split; [reflexivity|]. right. eexists. reflexivity.
  - intros [fields Hf]. discriminate Hf.
Defined.

Lemma discover_nothing_witness :
  (discover demo_repr (GetRaises "timed out")).1 = ∅
  ∧ route_targets None (discover demo_repr (GetRaises "timed out")).1
      (build_item_from_row no_dict_literal movie_row)
    = item_indexes (build_item_from_row no_dict_literal movie_row).
Proof. apply (discover_nothing demo_repr (GetRaises "timed out")). exact I. Defined.
